(** * fprime-gds-client-sample-script: the channel handler, the argument
    extension and the driver of [fprime_gds_client_sample_script.py]

    The script is a GDS client: it adds one command line option, builds the
    standard pipeline, registers a [SpecificChannel] data handler as a
    channel consumer and sleeps.  This development embeds the three pieces
    of the script and states what they do.

    Python values are modelled as follows.
    - [str] is [string], the UTF-8 bytes of the text; the characters that
      have no literal spelling are built from their code ([nl], [tab]).
      [repr] of ASCII text is computed ([py_repr]); [repr] of text beyond
      ASCII depends on the interpreter's Unicode tables and is a field of
      the world ([python_repr]).
    - [dict] is an insertion-ordered association list ([PyDict]): Python
      dictionaries keep insertion order, and the driver's error message
      joins the keys in that order.  Key sets are read off as [gset string].
    - [None] stored in a dictionary is [None : option _]; a key that is
      missing is a failed [get].
    - exceptions are values of [exn]; code that can raise returns
      [exn + A], and the driver runs in a small state-and-exception monad
      [M] over a [World], the record of what the framework and the operator
      answer to each call out of the script.
    - the handler is an object on a heap: the driver's local variable and
      the pipeline's list of consumers hold the same reference, and the
      samples that arrive during a sleep change that one object.
    - [while True] is cut off by a fuel parameter; [run_fuel] and
      [run_terminates] show that any fuel but none gives the one run.

    The statements are embedded as they are written.  One line of the
    file, the [for] line of [dump_data], lacks its colon, so Python as it
    compiles the module stops there; the development reads that line as
    the loop header it is meant to be (see [dump_data]). *)

From Stdlib Require Import ZArith String Ascii List.
From stdpp Require Import base decidable option list strings pretty gmap sets.

#[local] Set Warnings "-clear-no-such-hyp".

Open Scope string_scope.
Open Scope list_scope.

(** ** Python dictionaries *)

Module PyDict.

(** A dictionary with [str] keys: the items in insertion order. *)
Abbreviation t V := (list (string * V)).

Definition empty {V : Type} : t V := [].

(** [d.keys()], in insertion order. *)
Definition keys {V : Type} (d : t V) : list string := map fst d.

(** The lookup behind [d[k]] and [k in d]. *)
Fixpoint get {V : Type} (d : t V) (k : string) : option V :=
  match d with
  | [] => None
  | (k', v) :: d' => if decide (k' = k) then Some v else get d' k
  end.

(** [d[k] = v]: an existing key keeps its position and takes the new
    value, a new key is appended. *)
Fixpoint setitem {V : Type} (d : t V) (k : string) (v : V) : t V :=
  match d with
  | [] => [(k, v)]
  | (k', v') :: d' =>
      if decide (k' = k) then (k', v) :: d' else (k', v') :: setitem d' k v
  end.

(** [{key: v for key in ks}]: one [setitem] per element, left to right. *)
Definition comprehension {V : Type} (ks : list string) (v : V) : t V :=
  foldl (fun d k => setitem d k v) empty ks.

(** The keys as a finite set. *)
Definition key_set {V : Type} (d : t V) : gset string := list_to_set (keys d).

(** What every dictionary built by Python satisfies: keys are unique. *)
Definition wf {V : Type} (d : t V) : Prop := NoDup (keys d).

End PyDict.

(** ** Exceptions *)

(** The exception classes the script meets, with the part of the built-in
    hierarchy that decides which [except] clause takes them.  [OtherError]
    stands for any further class derived from [Exception] that the
    framework may raise. *)
Inductive exn_class : Type :=
| BaseException
| Exception
| KeyboardInterrupt
| SystemExit
| LookupError
| KeyError
| NameError
| UnboundLocalError
| TypeError
| AttributeError
| OtherError.

#[global] Instance exn_class_eq_dec : EqDecision exn_class.
Proof. solve_decision. Defined.

(** The direct base class. *)
Definition base_class (c : exn_class) : option exn_class :=
  match c with
  | BaseException => None
  | Exception => Some BaseException
  | KeyboardInterrupt => Some BaseException
  | SystemExit => Some BaseException
  | LookupError => Some Exception
  | KeyError => Some LookupError
  | NameError => Some Exception
  | UnboundLocalError => Some NameError
  | TypeError => Some Exception
  | AttributeError => Some Exception
  | OtherError => Some Exception
  end.

Fixpoint issubclass_upto (depth : nat) (c target : exn_class) : bool :=
  if decide (c = target) then true
  else match depth, base_class c with
       | S depth', Some b => issubclass_upto depth' b target
       | _, _ => false
       end.

(** [issubclass(c, target)]; no chain of bases is longer than four. *)
Definition issubclass (c target : exn_class) : bool := issubclass_upto 4 c target.

(** An exception instance [cls(arg)] with one [str] argument.  The text
    of an instance of a class other than [KeyError] is its argument, so
    for these classes a value stands for any instance with that text. *)
Record exn : Type := Exn { exn_cls : exn_class; exn_arg : string }.

(** The characters without a literal spelling. *)
Definition nl : ascii := ascii_of_nat 10.
Definition tab : ascii := ascii_of_nat 9.
Definition squote : ascii := ascii_of_nat 39.
Definition dquote : ascii := ascii_of_nat 34.
Definition bslash : ascii := ascii_of_nat 92.

Definition str1 (c : ascii) : string := String c EmptyString.

Fixpoint contains (c : ascii) (s : string) : bool :=
  match s with
  | EmptyString => false
  | String c' s' => Ascii.eqb c' c || contains c s'
  end.

Definition hex_digit (n : nat) : ascii :=
  nth n (list_ascii_of_string "0123456789abcdef") "0"%char.

(** The escapes of [repr] on a [str] quoted with [q], for ASCII text.
    Strings are UTF-8 byte sequences; a byte from 128 on is part of a
    character beyond ASCII and is kept here.  Whether [repr] escapes such
    a character is decided by the Unicode tables of the interpreter:
    [python_repr] below asks the world for the [repr] of such a string and
    does not come here. *)
Fixpoint repr_body (q : ascii) (s : string) : string :=
  match s with
  | EmptyString => EmptyString
  | String c s' =>
      let n := nat_of_ascii c in
      (if Ascii.eqb c q || Ascii.eqb c bslash then String bslash (str1 c)
       else if Nat.eqb n 9 then String bslash "t"
       else if Nat.eqb n 10 then String bslash "n"
       else if Nat.eqb n 13 then String bslash "r"
       else if Nat.ltb n 32 || Nat.eqb n 127
            then String bslash (String "x" (String (hex_digit (n / 16)) (str1 (hex_digit (n mod 16)))))
       else str1 c) ++ repr_body q s'
  end.

(** [repr(s)] for a [str]: single quotes, unless the string holds a single
    quote and no double quote. *)
Definition py_repr (s : string) : string :=
  let q := if contains squote s && negb (contains dquote s) then dquote else squote in
  String q (repr_body q s ++ str1 q).

(** [str(e)] for an exception whose argument is ASCII text: the argument,
    which [KeyError] shows through [repr].  The driver formats exceptions
    with [exn_text] below, which is this function on such arguments. *)
Definition exn_str (e : exn) : string :=
  if issubclass (exn_cls e) KeyError then py_repr (exn_arg e) else exn_arg e.

(** A computation that returns or raises. *)
Definition result (A : Type) : Type := exn + A.

(** [d[k]] as an expression: [KeyError(k)] on a missing key. *)
Definition getitem {V : Type} (d : PyDict.t V) (k : string) : result V :=
  match PyDict.get d k with
  | Some v => inr v
  | None => inl (Exn KeyError k)
  end.

(** ** The data of the framework that the script touches *)

(** A channel dictionary entry ([ChTemplate]); the script reads its [id]. *)
Record ChTemplate : Type := mkChTemplate { ch_id : Z; ch_description : string }.

(** A decoded channel sample ([ChData]): the channel's name and identifier,
    the value and the time stamp. *)
Record ChData : Type := mkChData {
  name : string;
  data_id : Z;
  val : Z;
  time_stamp : Z
}.

(** ** The channel handler *)

Module SpecificChannel.

(** The instance attributes [self.last_value] and [self.id]. *)
Record t : Type := mk {
  last_value : PyDict.t (option ChData);
  id : Z
}.

(** [SpecificChannel(channels_by_name, name)].  [self.last_value] is built
    first; the subscript [channels_by_name[name]] then raises [KeyError]
    for an unknown name and no handler comes out. *)
Definition __init__ (channels_by_name : PyDict.t ChTemplate) (name : string) : result t :=
  let last_value := PyDict.comprehension (PyDict.keys channels_by_name) (@None ChData) in
  match getitem channels_by_name name with
  | inl e => inl e
  | inr entry => inr {| last_value := last_value; id := ch_id entry |}
  end.

(** [data_callback(self, data, sender=None)]: the one assignment
    [self.last_value[data.name] = data].  [sender] is not used. *)
Definition data_callback (self : t) (data : ChData) : t :=
  {| last_value := PyDict.setitem (last_value self) (name data) (Some data);
     id := id self |}.

(** Delivering samples in arrival order. *)
Definition deliver (self : t) (samples : list ChData) : t :=
  foldl data_callback self samples.

End SpecificChannel.

(** ** The argument extension *)

(** Values of the keyword arguments handed to [argparse]. *)
Inductive pyval : Type :=
| PyStr (s : string)
| PyBool (b : bool).

#[global] Instance pyval_eq_dec : EqDecision pyval.
Proof. solve_decision. Defined.

Module ChannelNameParser.

(** [get_arguments(self)]: a dictionary from flag tuples to the keyword
    arguments of [add_argument]. *)
Definition get_arguments : list (list string * PyDict.t pyval) :=
  [ (["--channel-name"],
     [ ("dest", PyStr "channel_name");
       ("help", PyStr "Name of channel to filter on");
       ("required", PyBool true) ]) ].

(** [handle_arguments(self, args, **kwargs)]: [return args]. *)
Definition handle_arguments {Args : Type} (args : Args) (kwargs : PyDict.t pyval) : Args :=
  args.

End ChannelNameParser.

(** ** The driver *)

(** The namespace that [ParserBase.parse_args] returns: the option of the
    script and the options of the standard pipeline parser. *)
Record Namespace : Type := mkNamespace {
  channel_name : string;
  standard_args : PyDict.t pyval
}.

(** The standard pipeline, as far as the script looks into it:
    [pipeline.dictionaries.channel_name]. *)
Record Pipeline : Type := mkPipeline {
  dictionaries_channel_name : PyDict.t ChTemplate
}.

(** A reference to a handler object on the heap. *)
Definition ref : Type := nat.

(** Calls out of the script. *)
Inductive call : Type :=
| ParseArgs
| PipelineFactory
| RegisterChannelConsumer (consumer : ref)
| Sleep (secs : Z)
| Disconnect.

Inductive stream : Type := Stdout | Stderr.

(** What an observer of the process sees: each call out of the script with
    the exception it raised, if any, and each line written. *)
Inductive event : Type :=
| EvCall (c : call) (raised : option exn)
| EvPrint (file : stream) (text : string).

(** What the framework, the operator and the interpreter answer.
    [sleep n] is the outcome of the [n]-th call of [time.sleep] (an
    interrupt arrives as [KeyboardInterrupt]), [arrivals n] the samples the
    pipeline decodes while that call lasts.  [repr_beyond_ascii s] is the
    [repr] of a [str] that holds characters beyond ASCII: which of them
    are escaped is read from the interpreter's Unicode tables, which are
    no part of the script. *)
Record World : Type := mkWorld {
  parse_args : result Namespace;
  pipeline_factory : Namespace -> result Pipeline;
  register_channel_consumer : result unit;
  sleep : nat -> result unit;
  arrivals : nat -> list ChData;
  disconnect : result unit;
  repr_beyond_ascii : string -> string
}.

(** Every byte is below 128. *)
Fixpoint ascii_only (s : string) : bool :=
  match s with
  | EmptyString => true
  | String c s' => Nat.ltb (nat_of_ascii c) 128 && ascii_only s'
  end.

(** [repr(s)] for any [str]. *)
Definition python_repr (w : World) (s : string) : string :=
  if ascii_only s then py_repr s else repr_beyond_ascii w s.

(** [str(e)], as the f-strings of [main] format an exception. *)
Definition exn_text (w : World) (e : exn) : string :=
  if issubclass (exn_cls e) KeyError then python_repr w (exn_arg e) else exn_arg e.

(** The local variables of [main] that outlive a statement; [None] is an
    unbound local. *)
Record Frame : Type := mkFrame {
  arguments : option Namespace;
  pipeline : option Pipeline;
  channel_handler : option ref
}.

Record State : Type := mkState {
  events : list event;
  heap : list SpecificChannel.t;
  consumers : list ref;
  sleeps : nat;
  frame : Frame
}.

Definition initial_state : State :=
  {| events := []; heap := []; consumers := []; sleeps := 0;
     frame := {| arguments := None; pipeline := None; channel_handler := None |} |}.

Definition log (e : event) (st : State) : State :=
  {| events := events st ++ [e]; heap := heap st; consumers := consumers st;
     sleeps := sleeps st; frame := frame st |}.

Definition set_frame (f : Frame) (st : State) : State :=
  {| events := events st; heap := heap st; consumers := consumers st;
     sleeps := sleeps st; frame := f |}.

Definition set_heap (h : list SpecificChannel.t) (st : State) : State :=
  {| events := events st; heap := h; consumers := consumers st;
     sleeps := sleeps st; frame := frame st |}.

(** How a statement ends.  [OutOfFuel] is the bound on the iterations of
    [while True] running out. *)
Inductive outcome (A : Type) : Type :=
| Ret (a : A)
| Raise (e : exn)
| OutOfFuel.
Arguments Ret {A} a.
Arguments Raise {A} e.
Arguments OutOfFuel {A}.

Definition M (A : Type) : Type := World -> State -> State * outcome A.

#[global] Instance M_ret : MRet M := fun A a _ st => (st, Ret a).

#[global] Instance M_bind : MBind M := fun A B f m w st =>
  match m w st with
  | (st', Ret a) => f a w st'
  | (st', Raise e) => (st', Raise e)
  | (st', OutOfFuel) => (st', OutOfFuel)
  end.

Definition raise {A : Type} (e : exn) : M A := fun _ st => (st, Raise e).

Definition lift {A : Type} (r : result A) : M A :=
  match r with inl e => raise e | inr a => mret a end.

Definition raised {A : Type} (r : result A) : option exn :=
  match r with inl e => Some e | inr _ => None end.

(** A call out of the script: it is observed, then returns or raises. *)
Definition extern {A : Type} (c : call) (answer : World -> result A) : M A :=
  fun w st => lift (answer w) w (log (EvCall c (raised (answer w))) st).

(** [try: body except C1: h1 except C2: h2 ...]: the first clause whose
    class the exception is an instance of handles it; an exception raised
    inside a handler leaves the statement. *)
Definition try_except {A : Type} (body : M A) (handlers : list (exn_class * (exn -> M A))) : M A :=
  fun w st =>
    match body w st with
    | (st', Raise e) =>
        match find (fun h => issubclass (exn_cls e) (fst h)) handlers with
        | Some h => snd h e w st'
        | None => (st', Raise e)
        end
    | r => r
    end.

(** [while True: body], cut off after [fuel] iterations. *)
Fixpoint while_true (fuel : nat) (body : M unit) : M unit :=
  match fuel with
  | 0 => fun _ st => (st, OutOfFuel)
  | S fuel' => body ;; while_true fuel' body
  end.

(** [print(text, file=...)]. *)
Definition print (file : stream) (text : string) : M unit :=
  fun _ st => (log (EvPrint file (text ++ str1 nl)) st, Ret tt).

(** Reading a local variable of [main]. *)
Definition load_fast {A : Type} (var : string) (field : Frame -> option A) : M A :=
  fun _ st =>
    match field (frame st) with
    | Some a => (st, Ret a)
    | None =>
        (st, Raise (Exn UnboundLocalError
                      ("cannot access local variable '" ++ var
                       ++ "' where it is not associated with a value")))
    end.

Definition store_arguments (a : Namespace) : M unit :=
  fun _ st =>
    (set_frame {| arguments := Some a; pipeline := pipeline (frame st);
                  channel_handler := channel_handler (frame st) |} st, Ret tt).

Definition store_pipeline (p : Pipeline) : M unit :=
  fun _ st =>
    (set_frame {| arguments := arguments (frame st); pipeline := Some p;
                  channel_handler := channel_handler (frame st) |} st, Ret tt).

Definition store_channel_handler (r : ref) : M unit :=
  fun _ st =>
    (set_frame {| arguments := arguments (frame st); pipeline := pipeline (frame st);
                  channel_handler := Some r |} st, Ret tt).

(** Objects bound at module level. *)
Inductive pyobj : Type :=
| PyModule (n : string)
| PyClass (n : string)
| PyFunction (n : string).

#[global] Instance pyobj_eq_dec : EqDecision pyobj.
Proof. solve_decision. Defined.

(** The names the module binds, in the order of the file, and the built-in
    names the script mentions. *)
Definition module_namespace : PyDict.t pyobj :=
  [ ("sys", PyModule "sys");
    ("time", PyModule "time");
    ("Any", PyClass "Any");
    ("Dict", PyClass "Dict");
    ("Tuple", PyClass "Tuple");
    ("ParserBase", PyClass "ParserBase");
    ("StandardPipelineParser", PyClass "StandardPipelineParser");
    ("DataHandler", PyClass "DataHandler");
    ("SpecificChannel", PyClass "SpecificChannel");
    ("ChannelNameParser", PyClass "ChannelNameParser");
    ("main", PyFunction "main");
    ("print", PyFunction "print");
    ("KeyboardInterrupt", PyClass "KeyboardInterrupt");
    ("KeyError", PyClass "KeyError");
    ("Exception", PyClass "Exception") ].

(** Reading a name that the function does not assign: the module's
    bindings and the built-ins, else [NameError]. *)
Definition load_global (n : string) : M pyobj :=
  match PyDict.get module_namespace n with
  | Some o => mret o
  | None => raise (Exn NameError ("name '" ++ n ++ "' is not defined"))
  end.

(** [SpecificChannel.dump_data], declared [def dump_data():] with no
    parameter.  A call through an instance passes the instance and is
    refused with [TypeError]; a call with no argument reaches the body,
    [for key, channel in self.last_value.items()], whose [self] is then a
    global name.  The [for] line has no colon and only a comment under it:
    it is read as a loop with nothing to do, which writes nothing. *)
Definition dump_data (positional : list ref) : M unit :=
  match positional with
  | [] =>
      _ ← load_global "self";
      raise (Exn AttributeError "last_value")
  | _ :: _ =>
      raise (Exn TypeError
               ("SpecificChannel.dump_data() takes 0 positional arguments but "
                ++ (if decide (length positional = 1) then "1 was given"
                    else pretty (length positional) ++ " were given")))
  end.

(** [o.dump_data()] on a module-level object. *)
Definition call_dump_data (o : pyobj) : M unit :=
  if decide (o = PyClass "SpecificChannel") then dump_data []
  else raise (Exn AttributeError "dump_data").

(** Modelled from the spec: the pipeline's delivery of samples, which is
    no code of the script (spec, section 6: the registration accepts a
    consumer and invokes that consumer's update method for every arriving
    channel sample).  One decoded sample goes to a registered consumer by
    a call of its [data_callback]. *)
Definition hand_over (data : ChData) (st : State) (r : ref) : State :=
  match heap st !! r with
  | Some h => set_heap (<[r := SpecificChannel.data_callback h data]> (heap st)) st
  | None => st
  end.

(** Modelled from the spec: one sample is handed to every registered
    consumer. *)
Definition dispatch (st : State) (data : ChData) : State :=
  foldl (hand_over data) st (consumers st).

(** Modelled from the spec: the samples of [arrivals n] are dispatched in
    arrival order while the [n]-th call of [time.sleep] lasts.  The
    pipeline delivers from a context of its own, at any time between the
    registration and the disconnect; the model collects the deliveries at
    the sleep, the one place where [main] waits.  [main] never reads the
    handler, so nothing that is stated about [main] depends on when the
    deliveries happen. *)
Definition receive (w : World) (st : State) : State :=
  let st1 := foldl dispatch st (arrivals w (sleeps st)) in
  {| events := events st1; heap := heap st1; consumers := consumers st1;
     sleeps := S (sleeps st); frame := frame st1 |}.

(** [time.sleep(secs)]. *)
Definition call_sleep (secs : Z) : M unit :=
  fun w st => extern (Sleep secs) (fun w => sleep w (sleeps st)) w (receive w st).

(** Creating the handler object. *)
Definition construct (r : result SpecificChannel.t) : M ref :=
  fun _ st =>
    match r with
    | inl e => (st, Raise e)
    | inr h => (set_heap (heap st ++ [h]) st, Ret (length (heap st)))
    end.

(** [pipeline.coders.register_channel_consumer(channel_handler)]. *)
Definition call_register (r : ref) : M unit :=
  fun w st =>
    match extern (RegisterChannelConsumer r) register_channel_consumer w st with
    | (st', Ret tt) =>
        ({| events := events st'; heap := heap st'; consumers := consumers st' ++ [r];
            sleeps := sleeps st'; frame := frame st' |}, Ret tt)
    | r => r
    end.

(** [sep.join(l)]. *)
Fixpoint join (sep : string) (l : list string) : string :=
  match l with
  | [] => ""
  | [x] => x
  | x :: l' => x ++ sep ++ join sep l'
  end.

(** The body of the [while True] loop:
    [time.sleep(60)] and [chanbel_handler.dump_data()]. *)
Definition main_loop_body : M unit :=
  call_sleep 60;;
  o ← load_global "chanbel_handler";
  call_dump_data o.

(** The statements of the [try] body before the loop: parsing the
    arguments, building the pipeline, creating the handler and registering
    it as a channel consumer. *)
Definition main_setup : M unit :=
  a ← extern ParseArgs parse_args;
  store_arguments a;;
  a ← load_fast "arguments" arguments;
  p ← extern PipelineFactory (fun w => pipeline_factory w a);
  store_pipeline p;;
  p ← load_fast "pipeline" pipeline;
  a ← load_fast "arguments" arguments;
  h ← construct (SpecificChannel.__init__ (dictionaries_channel_name p) (channel_name a));
  store_channel_handler h;;
  _ ← load_fast "pipeline" pipeline;
  h ← load_fast "channel_handler" channel_handler;
  call_register h.

(** The body of the [try] statement of [main]. *)
Definition main_try (fuel : nat) : M unit :=
  main_setup;;
  while_true fuel main_loop_body.

Definition on_KeyboardInterrupt (_ : exn) : M unit := mret tt.

Definition on_KeyError (key : exn) : M unit :=
  fun w =>
    (p ← load_fast "pipeline" pipeline;
     let choose_from :=
       join (String nl (str1 tab)) (PyDict.keys (dictionaries_channel_name p)) in
     print Stderr ("[ERROR] Unknown channel name: " ++ exn_text w key
                   ++ String nl (str1 tab) ++ choose_from)) w.

Definition on_Exception (exc : exn) : M unit :=
  fun w => print Stderr ("[ERROR] Failed to run example code: " ++ exn_text w exc) w.

(** The statement after the [try] statement: [pipeline.disconnect()]. *)
Definition main_disconnect : M unit :=
  _ ← load_fast "pipeline" pipeline;
  extern Disconnect disconnect.

(** [main()]. *)
Definition main (fuel : nat) : M unit :=
  try_except (main_try fuel)
    [ (KeyboardInterrupt, on_KeyboardInterrupt);
      (KeyError, on_KeyError);
      (Exception, on_Exception) ];;
  main_disconnect.

(** Running the process from its start. *)
Definition run (fuel : nat) (w : World) : State * outcome unit :=
  main fuel w initial_state.

(** ** Reading a run *)

(** How a call out of the script ends the statement it stands in. *)
Definition finished {A : Type} (r : result A) : outcome A :=
  match r with inl e => Raise e | inr a => Ret a end.

(** The texts written to a stream, one for each [print], oldest first. *)
Definition written (file : stream) (evs : list event) : list string :=
  omap (fun ev =>
          match ev, file with
          | EvPrint Stdout text, Stdout => Some text
          | EvPrint Stderr text, Stderr => Some text
          | _, _ => None
          end) evs.

(** The calls made out of the script, oldest first. *)
Definition calls (evs : list event) : list call :=
  omap (fun ev => match ev with EvCall c _ => Some c | EvPrint _ _ => None end) evs.

Definition is_sleep (c : call) : bool :=
  match c with Sleep _ => true | _ => false end.

(** The exceptions that one of the three [except] clauses of [main] takes. *)
Definition caught (e : exn) : bool :=
  existsb (issubclass (exn_cls e)) [KeyboardInterrupt; KeyError; Exception].

(** The pipeline that [main] gets to bind, if any. *)
Definition pipeline_constructed (w : World) : option Pipeline :=
  match parse_args w with
  | inl _ => None
  | inr a => match pipeline_factory w a with
             | inl _ => None
             | inr p => Some p
             end
  end.

(** The line that the [KeyError] clause prints. *)
Definition unknown_channel_message (w : World) (key : exn) (p : Pipeline) : string :=
  ("[ERROR] Unknown channel name: " ++ exn_text w key ++ String nl (str1 tab)
   ++ join (String nl (str1 tab)) (PyDict.keys (dictionaries_channel_name p)))
  ++ str1 nl.

(** ** The ways through the [try] statement

    [try_path w fuel st out]: the body of the [try] statement, started in
    the initial state, can end in state [st] with outcome [out].  One
    constructor per place where the body can stop. *)
Inductive try_path (w : World) (fuel : nat) : State -> outcome unit -> Prop :=
| path_parse_args e st :
    parse_args w = inl e ->
    events st = [EvCall ParseArgs (Some e)] ->
    pipeline (frame st) = None ->
    try_path w fuel st (Raise e)
| path_pipeline_factory a e st :
    parse_args w = inr a ->
    pipeline_factory w a = inl e ->
    events st = [EvCall ParseArgs None; EvCall PipelineFactory (Some e)] ->
    pipeline (frame st) = None ->
    try_path w fuel st (Raise e)
| path_init a p e st :
    parse_args w = inr a ->
    pipeline_factory w a = inr p ->
    SpecificChannel.__init__ (dictionaries_channel_name p) (channel_name a) = inl e ->
    events st = [EvCall ParseArgs None; EvCall PipelineFactory None] ->
    pipeline (frame st) = Some p ->
    try_path w fuel st (Raise e)
| path_register a p h e st :
    parse_args w = inr a ->
    pipeline_factory w a = inr p ->
    SpecificChannel.__init__ (dictionaries_channel_name p) (channel_name a) = inr h ->
    register_channel_consumer w = inl e ->
    events st = [EvCall ParseArgs None; EvCall PipelineFactory None;
                 EvCall (RegisterChannelConsumer 0) (Some e)] ->
    pipeline (frame st) = Some p ->
    try_path w fuel st (Raise e)
| path_out_of_fuel a p h st :
    fuel = 0 ->
    parse_args w = inr a ->
    pipeline_factory w a = inr p ->
    SpecificChannel.__init__ (dictionaries_channel_name p) (channel_name a) = inr h ->
    register_channel_consumer w = inr tt ->
    events st = [EvCall ParseArgs None; EvCall PipelineFactory None;
                 EvCall (RegisterChannelConsumer 0) None] ->
    pipeline (frame st) = Some p ->
    try_path w fuel st OutOfFuel
| path_sleep a p h e st :
    0 < fuel ->
    parse_args w = inr a ->
    pipeline_factory w a = inr p ->
    SpecificChannel.__init__ (dictionaries_channel_name p) (channel_name a) = inr h ->
    register_channel_consumer w = inr tt ->
    sleep w 0 = inl e ->
    events st = [EvCall ParseArgs None; EvCall PipelineFactory None;
                 EvCall (RegisterChannelConsumer 0) None;
                 EvCall (Sleep 60) (Some e)] ->
    pipeline (frame st) = Some p ->
    try_path w fuel st (Raise e)
| path_dump_data a p h st :
    0 < fuel ->
    parse_args w = inr a ->
    pipeline_factory w a = inr p ->
    SpecificChannel.__init__ (dictionaries_channel_name p) (channel_name a) = inr h ->
    register_channel_consumer w = inr tt ->
    sleep w 0 = inr tt ->
    events st = [EvCall ParseArgs None; EvCall PipelineFactory None;
                 EvCall (RegisterChannelConsumer 0) None;
                 EvCall (Sleep 60) None] ->
    pipeline (frame st) = Some p ->
    try_path w fuel st (Raise (Exn NameError "name 'chanbel_handler' is not defined")).

(** ** Scenarios

    The concrete data of the end-to-end scenarios. *)

(** The dictionary of the end-to-end scenarios and two samples of its
    channel. *)
Definition scenario_dictionary : PyDict.t ChTemplate :=
  [ ("blockDrv.BD_Cycles", {| ch_id := 7; ch_description := "Driver cycle count" |}) ].

Definition scenario_sample_1 : ChData :=
  {| name := "blockDrv.BD_Cycles"; data_id := 7; val := 1275; time_stamp := 1689793160 |}.

Definition scenario_sample_2 : ChData :=
  {| name := "blockDrv.BD_Cycles"; data_id := 7; val := 1277; time_stamp := 1689793162 |}.

Definition scenario_handler : SpecificChannel.t :=
  {| SpecificChannel.last_value := [ ("blockDrv.BD_Cycles", None) ]; SpecificChannel.id := 7 |}.

(** A sample of a channel that the scenario dictionary does not know. *)
Definition scenario_sample_unknown : ChData :=
  {| name := "rateGroup1.RgMaxTime"; data_id := 12; val := 3; time_stamp := 1689793161 |}.

(** A world around the scenario dictionary: the operator asks for channel
    [n], the framework builds the pipeline and registers the handler, two
    samples arrive during the first sleep, which ends as [first_sleep].
    The texts of the scenarios are ASCII, so [repr_beyond_ascii] is not
    consulted in them. *)
Definition scenario_world (n : string) (first_sleep : result unit) : World :=
  {| parse_args := inr {| channel_name := n; standard_args := [] |};
     pipeline_factory := fun _ => inr {| dictionaries_channel_name := scenario_dictionary |};
     register_channel_consumer := inr tt;
     sleep := fun i => match i with 0 => first_sleep | S _ => inr tt end;
     arrivals := fun i => match i with
                          | 0 => [scenario_sample_1; scenario_sample_2]
                          | S _ => []
                          end;
     disconnect := inr tt;
     repr_beyond_ascii := py_repr |}.

(** A world in which the pipeline cannot be built. *)
Definition scenario_world_no_pipeline : World :=
  {| parse_args := inr {| channel_name := "blockDrv.BD_Cycles"; standard_args := [] |};
     pipeline_factory := fun _ => inl (Exn OtherError "connection refused");
     register_channel_consumer := inr tt;
     sleep := fun _ => inr tt;
     arrivals := fun _ => [];
     disconnect := inr tt;
     repr_beyond_ascii := py_repr |}.

(** The interrupt of the operator. *)
Definition scenario_interrupt : exn := Exn KeyboardInterrupt "".

(** ** Further notions for reading the code

    The characters that [repr] leaves as they are inside single quotes:
    printable ASCII other than the two quotes and the backslash. *)
Definition plain_char (c : ascii) : bool :=
  let n := nat_of_ascii c in
  Nat.leb 32 n && Nat.ltb n 127
  && negb (Ascii.eqb c squote) && negb (Ascii.eqb c dquote) && negb (Ascii.eqb c bslash).

Fixpoint plain (s : string) : bool :=
  match s with
  | EmptyString => true
  | String c s' => plain_char c && plain s'
  end.

(** The exception of reading the local [pipeline] of [main] before it is
    bound. *)
Definition unbound_pipeline : exn :=
  Exn UnboundLocalError
    "cannot access local variable 'pipeline' where it is not associated with a value".

(** The calls of [main] up to the loop's [time.sleep], in program order. *)
Definition try_calls : list call :=
  [ParseArgs; PipelineFactory; RegisterChannelConsumer 0; Sleep 60].

(** The line that the [Exception] clause prints. *)
Definition failure_message (w : World) (exc : exn) : string :=
  ("[ERROR] Failed to run example code: " ++ exn_text w exc) ++ str1 nl.

(** Worlds in which one call of the framework raises [e]. *)
Definition scenario_world_parse_args_raises (e : exn) : World :=
  {| parse_args := inl e;
     pipeline_factory := fun _ => inr {| dictionaries_channel_name := scenario_dictionary |};
     register_channel_consumer := inr tt;
     sleep := fun _ => inr tt;
     arrivals := fun _ => [];
     disconnect := inr tt;
     repr_beyond_ascii := py_repr |}.

Definition scenario_world_register_raises (e : exn) : World :=
  {| parse_args := inr {| channel_name := "blockDrv.BD_Cycles"; standard_args := [] |};
     pipeline_factory := fun _ => inr {| dictionaries_channel_name := scenario_dictionary |};
     register_channel_consumer := inl e;
     sleep := fun _ => inr tt;
     arrivals := fun _ => [];
     disconnect := inr tt;
     repr_beyond_ascii := py_repr |}.

(** A dictionary of two channels and a handler that has seen neither. *)
Definition scenario_dictionary_2 : PyDict.t ChTemplate :=
  [ ("blockDrv.BD_Cycles", {| ch_id := 7; ch_description := "Driver cycle count" |});
    ("rateGroup1.RgMaxTime", {| ch_id := 12; ch_description := "Max execution time" |}) ].

(** The exception that keeps [main] from binding [pipeline], if any. *)
Definition construction_failure (w : World) : option exn :=
  match parse_args w with
  | inl e => Some e
  | inr a => match pipeline_factory w a with
             | inl e => Some e
             | inr _ => None
             end
  end.

(** The state in which the loop is entered: the three calls of the setup
    are behind, the one handler is on the heap and registered. *)
Definition setup_state (a : Namespace) (p : Pipeline) (h : SpecificChannel.t) : State :=
  {| events := [EvCall ParseArgs None; EvCall PipelineFactory None;
                EvCall (RegisterChannelConsumer 0) None];
     heap := [h]; consumers := [0]; sleeps := 0;
     frame := {| arguments := Some a; pipeline := Some p; channel_handler := Some 0 |} |}.

(** * Properties *)

(** ** Dictionaries *)

Module PyDictFacts.

Section Facts.
Import PyDict.
Context {V : Type}.
Implicit Types (d : PyDict.t V) (k : string) (v : V).

Lemma get_setitem_eq d k v : get (setitem d k v) k = Some v.
Proof.
  induction d as [|[k' v'] d IH]; simpl.
  - by rewrite decide_True.
  - destruct (decide (k' = k)) as [->|Hne]; simpl.
    + by rewrite decide_True.
    + by rewrite decide_False.
Qed.

Lemma get_setitem_ne d k k' v : k ≠ k' → get (setitem d k v) k' = get d k'.
Proof.
  intros Hne. induction d as [|[k0 v0] d IH]; simpl.
  - by rewrite decide_False.
  - destruct (decide (k0 = k)) as [->|Hk0]; simpl.
    + by rewrite !decide_False.
    + by rewrite IH.
Qed.

Lemma get_setitem d k k' v :
  get (setitem d k v) k' = if decide (k = k') then Some v else get d k'.
Proof.
  case_decide as Hk; [subst; apply get_setitem_eq | by apply get_setitem_ne].
Qed.

Lemma get_Some_keys d k : is_Some (get d k) ↔ k ∈ keys d.
Proof.
  induction d as [|[k' v'] d IH]; simpl.
  - split; [intros [? [=]] | by intros ?%elem_of_nil].
  - rewrite elem_of_cons. destruct (decide (k' = k)) as [->|Hne].
    + split; eauto.
    + rewrite IH. split; [by right | by intros [?|?]].
Qed.

Lemma get_None_keys d k : get d k = None ↔ k ∉ keys d.
Proof. rewrite <- get_Some_keys, eq_None_not_Some. done. Qed.

Lemma keys_setitem_in d k v : k ∈ keys d → keys (setitem d k v) = keys d.
Proof.
  induction d as [|[k' v'] d IH]; simpl.
  - by intros ?%elem_of_nil.
  - intros Hin. destruct (decide (k' = k)) as [->|Hne]; simpl; [done|].
    f_equal. apply IH. apply elem_of_cons in Hin as [?|?]; congruence.
Qed.

Lemma keys_setitem_notin d k v : k ∉ keys d → keys (setitem d k v) = keys d ++ [k].
Proof.
  induction d as [|[k' v'] d IH]; simpl; [done|].
  intros Hnin. apply not_elem_of_cons in Hnin as [Hne Hnin].
  rewrite decide_False by done. simpl. by rewrite IH.
Qed.

Lemma elem_of_keys_setitem d k k' v :
  k' ∈ keys (setitem d k v) ↔ k' = k ∨ k' ∈ keys d.
Proof.
  destruct (decide (k ∈ keys d)) as [Hin|Hnin].
  - rewrite keys_setitem_in by done.
    split; [by right | by intros [->|?]].
  - rewrite keys_setitem_notin by done. rewrite elem_of_app, list_elem_of_singleton.
    tauto.
Qed.

Lemma key_set_setitem d k v : key_set (setitem d k v) = {[k]} ∪ key_set d.
Proof.
  apply set_eq. intros k'. unfold key_set.
  rewrite elem_of_union, !elem_of_list_to_set, elem_of_keys_setitem.
  set_solver.
Qed.

Lemma wf_setitem d k v : wf d → wf (setitem d k v).
Proof.
  unfold wf. intros Hd. destruct (decide (k ∈ keys d)) as [Hin|Hnin].
  - by rewrite keys_setitem_in.
  - rewrite keys_setitem_notin by done.
    apply NoDup_app. split_and!; [done| |apply NoDup_singleton].
    intros x Hx ->%list_elem_of_singleton. done.
Qed.

(** Writing the same key twice keeps only the second value. *)
Lemma setitem_setitem d k v1 v2 : setitem (setitem d k v1) k v2 = setitem d k v2.
Proof.
  induction d as [|[k' v'] d IH]; simpl.
  - by rewrite decide_True.
  - destruct (decide (k' = k)) as [->|Hne]; simpl.
    + by rewrite decide_True.
    + rewrite decide_False by done. by rewrite IH.
Qed.

Lemma foldl_setitem_get (ks : list string) v d k :
  get (foldl (fun d k => setitem d k v) d ks) k
  = if decide (k ∈ ks) then Some v else get d k.
Proof.
  revert d. induction ks as [|k0 ks IH]; intros d.
  - destruct (decide (k ∈ [])) as [Hin|_]; [by apply elem_of_nil in Hin | done].
  - simpl. rewrite IH, get_setitem.
    destruct (decide (k ∈ ks)) as [Hin|Hnin].
    + rewrite decide_True; [done | by right].
    + destruct (decide (k0 = k)) as [->|Hne].
      * rewrite decide_True; [done | by left].
      * rewrite decide_False; [done|].
        intros [?|?]%elem_of_cons; congruence.
Qed.

Lemma foldl_setitem_key_set (ks : list string) v d :
  key_set (foldl (fun d k => setitem d k v) d ks) = key_set d ∪ list_to_set ks.
Proof.
  revert d. induction ks as [|k0 ks IH]; intros d; simpl.
  - set_solver.
  - rewrite IH, key_set_setitem. set_solver.
Qed.

Lemma foldl_setitem_wf (ks : list string) v d :
  wf d → wf (foldl (fun d k => setitem d k v) d ks).
Proof.
  revert d. induction ks as [|k0 ks IH]; intros d Hd; simpl; [done|].
  apply IH. by apply wf_setitem.
Qed.

Lemma foldl_setitem_keys (ks : list string) v d :
  NoDup ks → (∀ k, k ∈ ks → k ∉ keys d) →
  keys (foldl (fun d k => setitem d k v) d ks) = keys d ++ ks.
Proof.
  revert d. induction ks as [|k0 ks IH]; intros d Hnd Hdisj; simpl.
  - by rewrite app_nil_r.
  - apply NoDup_cons in Hnd as [Hk0 Hnd].
    rewrite IH; [|done|].
    + rewrite keys_setitem_notin by (apply Hdisj; by left).
      by rewrite <- app_assoc.
    + intros k Hk. rewrite elem_of_keys_setitem.
      intros [->|Hin]; [done|]. apply (Hdisj k); [by right | done].
Qed.

Lemma comprehension_get (ks : list string) v k :
  get (comprehension ks v) k = if decide (k ∈ ks) then Some v else None.
Proof. unfold comprehension. by rewrite foldl_setitem_get. Qed.

Lemma comprehension_key_set (ks : list string) v :
  key_set (comprehension ks v) = list_to_set ks.
Proof.
  unfold comprehension. rewrite foldl_setitem_key_set.
  unfold key_set, empty. simpl. set_solver.
Qed.

Lemma comprehension_wf (ks : list string) v : wf (comprehension ks v).
Proof. apply foldl_setitem_wf. unfold wf, empty. simpl. apply NoDup_nil_2. Qed.

(** Over unique keys the comprehension keeps the order of the keys. *)
Lemma comprehension_keys (ks : list string) v :
  NoDup ks → keys (comprehension ks v) = ks.
Proof.
  intros Hnd. unfold comprehension. rewrite foldl_setitem_keys; [done..|].
  intros k _. apply not_elem_of_nil.
Qed.

End Facts.

End PyDictFacts.

(** ** The channel handler *)

Section HandlerFacts.
Import PyDict PyDictFacts SpecificChannel.
Implicit Types (self : SpecificChannel.t) (data : ChData) (k : string).

(** Entries under other keys keep their value and their place. *)
Lemma setitem_filter_ne {V : Type} (d : PyDict.t V) k (v : V) :
  filter (fun kv => kv.1 ≠ k) (setitem d k v) = filter (fun kv => kv.1 ≠ k) d.
Proof.
  induction d as [|[k' v'] d IH]; cbn [setitem].
  - by rewrite filter_cons_False by (cbn; tauto).
  - destruct (decide (k' = k)) as [->|Hne].
    + by rewrite !filter_cons_False by (cbn; tauto).
    + by rewrite !filter_cons_True, IH by done.
Qed.

Lemma get_data_callback self data k :
  get (last_value (data_callback self data)) k
  = if decide (name data = k) then Some (Some data) else get (last_value self) k.
Proof. unfold data_callback. simpl. apply get_setitem. Qed.

Lemma key_set_data_callback self data :
  key_set (last_value (data_callback self data))
  = key_set (last_value self) ∪ {[name data]}.
Proof. unfold data_callback. simpl. rewrite key_set_setitem. set_solver. Qed.

Lemma elem_of_key_set {V : Type} (d : PyDict.t V) k : k ∈ key_set d ↔ k ∈ keys d.
Proof. unfold key_set. apply elem_of_list_to_set. Qed.

Lemma init_known (channels_by_name : PyDict.t ChTemplate) k entry :
  get channels_by_name k = Some entry →
  __init__ channels_by_name k
  = inr {| last_value := comprehension (keys channels_by_name) None; id := ch_id entry |}.
Proof. intros Hget. unfold __init__, getitem. by rewrite Hget. Qed.

Lemma init_unknown (channels_by_name : PyDict.t ChTemplate) k :
  k ∉ keys channels_by_name →
  __init__ channels_by_name k = inl (Exn KeyError k).
Proof.
  intros Hk%get_None_keys. unfold __init__, getitem. by rewrite Hk.
Qed.

Lemma init_last_value (channels_by_name : PyDict.t ChTemplate) k self :
  __init__ channels_by_name k = inr self →
  last_value self = comprehension (keys channels_by_name) None.
Proof.
  unfold __init__. destruct (getitem channels_by_name k); [done|].
  by intros [= <-].
Qed.

End HandlerFacts.

Example scenario_init :
  SpecificChannel.__init__ scenario_dictionary "blockDrv.BD_Cycles" = inr scenario_handler.
Proof. reflexivity. Qed.

Example scenario_delivery :
  PyDict.get
    (SpecificChannel.last_value (SpecificChannel.data_callback scenario_handler scenario_sample_1))
    "blockDrv.BD_Cycles"
  = Some (Some scenario_sample_1).
Proof. reflexivity. Qed.

Example scenario_unknown_name :
  SpecificChannel.__init__ scenario_dictionary "doesNotExist"
  = inl (Exn KeyError "doesNotExist").
Proof. reflexivity. Qed.

(** After construction and one delivery, the entries of the other
    channels of the dictionary still hold [None]. *)
Lemma init_then_delivery (channels_by_name : PyDict.t ChTemplate) (n : string)
    (self : SpecificChannel.t) (data : ChData) (k : string) :
  SpecificChannel.__init__ channels_by_name n = inr self →
  k ∈ PyDict.keys channels_by_name →
  k ≠ name data →
  PyDict.get (SpecificChannel.last_value (SpecificChannel.data_callback self data)) k
  = Some None.
Proof.
  intros Hinit Hk Hne. rewrite get_data_callback, decide_False by done.
  rewrite (init_last_value _ _ _ Hinit), PyDictFacts.comprehension_get.
  by rewrite decide_True.
Qed.

(** C1: [data_callback] stores the sample under the sample's own channel
    name, and every other entry of the last-value mapping is as before: the
    lookup under any other name gives what it gave, and the entries under
    other names are the same ones in the same order. *)
Theorem data_callback_stores_sample (self : SpecificChannel.t) (data : ChData) :
  let self' := SpecificChannel.data_callback self data in
  PyDict.get (SpecificChannel.last_value self') (name data) = Some (Some data)
  ∧ (∀ k, k ≠ name data →
       PyDict.get (SpecificChannel.last_value self') k
       = PyDict.get (SpecificChannel.last_value self) k)
  ∧ filter (fun kv => kv.1 ≠ name data) (SpecificChannel.last_value self')
    = filter (fun kv => kv.1 ≠ name data) (SpecificChannel.last_value self).
Proof.
  cbv zeta. split_and!.
  - rewrite get_data_callback. by rewrite decide_True.
  - intros k Hk. rewrite get_data_callback. by rewrite decide_False.
  - apply setitem_filter_ne.
Qed.

Lemma data_callback_stores_sample_witness :
  "blockDrv.BD_Cycles" ≠ name scenario_sample_unknown
  ∧ PyDict.get
      (SpecificChannel.last_value
         (SpecificChannel.data_callback scenario_handler scenario_sample_unknown))
      (name scenario_sample_unknown)
    = Some (Some scenario_sample_unknown)
  ∧ PyDict.get
      (SpecificChannel.last_value
         (SpecificChannel.data_callback scenario_handler scenario_sample_unknown))
      "blockDrv.BD_Cycles"
    = PyDict.get (SpecificChannel.last_value scenario_handler) "blockDrv.BD_Cycles".
Proof.
  assert (Hne : "blockDrv.BD_Cycles" ≠ name scenario_sample_unknown) by discriminate.
  split; [exact Hne|]. split.
  - exact (proj1 (data_callback_stores_sample scenario_handler scenario_sample_unknown)).
  - exact (proj1 (proj2 (data_callback_stores_sample scenario_handler
                           scenario_sample_unknown))
             "blockDrv.BD_Cycles" Hne).
Defined.

(** C2: for a name that is a key of the dictionary, construction succeeds,
    and the last-value mapping of the handler has exactly the dictionary's
    keys, each mapped to [None]. *)
Theorem init_prepopulates (channels_by_name : PyDict.t ChTemplate) (n : string) :
  n ∈ PyDict.keys channels_by_name →
  ∃ self,
    SpecificChannel.__init__ channels_by_name n = inr self
    ∧ PyDict.key_set (SpecificChannel.last_value self) = PyDict.key_set channels_by_name
    ∧ (∀ k, k ∈ PyDict.keys channels_by_name →
         PyDict.get (SpecificChannel.last_value self) k = Some None)
    ∧ (∀ k v, PyDict.get (SpecificChannel.last_value self) k = Some v → v = None).
Proof.
  intros [entry Hentry]%PyDictFacts.get_Some_keys.
  eexists. split; [by apply init_known|]. simpl. split_and!.
  - apply PyDictFacts.comprehension_key_set.
  - intros k Hk. rewrite PyDictFacts.comprehension_get. by rewrite decide_True.
  - intros k v. rewrite PyDictFacts.comprehension_get. case_decide; congruence.
Qed.

Lemma init_prepopulates_witness :
  "blockDrv.BD_Cycles" ∈ PyDict.keys scenario_dictionary
  ∧ ∃ self,
      SpecificChannel.__init__ scenario_dictionary "blockDrv.BD_Cycles" = inr self
      ∧ PyDict.key_set (SpecificChannel.last_value self) = PyDict.key_set scenario_dictionary
      ∧ (∀ k, k ∈ PyDict.keys scenario_dictionary →
           PyDict.get (SpecificChannel.last_value self) k = Some None)
      ∧ (∀ k v, PyDict.get (SpecificChannel.last_value self) k = Some v → v = None).
Proof.
  assert (Hin : "blockDrv.BD_Cycles" ∈ PyDict.keys scenario_dictionary)
    by (simpl; apply list_elem_of_here).
  split; [exact Hin | exact (init_prepopulates scenario_dictionary _ Hin)].
Defined.

(** C7: two samples with the same channel name, delivered one after the
    other, leave the handler in the state that the second one alone
    produces; the entry holds the second sample. *)
Theorem data_callback_overwrites (self : SpecificChannel.t) (s1 s2 : ChData) :
  name s1 = name s2 →
  SpecificChannel.data_callback (SpecificChannel.data_callback self s1) s2
  = SpecificChannel.data_callback self s2
  ∧ PyDict.get
      (SpecificChannel.last_value
         (SpecificChannel.data_callback (SpecificChannel.data_callback self s1) s2))
      (name s1)
    = Some (Some s2).
Proof.
  intros Hname. split.
  - unfold SpecificChannel.data_callback. simpl. rewrite Hname.
    by rewrite PyDictFacts.setitem_setitem.
  - rewrite get_data_callback. by rewrite decide_True.
Qed.

Lemma data_callback_overwrites_witness :
  name scenario_sample_1 = name scenario_sample_2
  ∧ SpecificChannel.data_callback
      (SpecificChannel.data_callback scenario_handler scenario_sample_1) scenario_sample_2
    = SpecificChannel.data_callback scenario_handler scenario_sample_2
  ∧ PyDict.get
      (SpecificChannel.last_value
         (SpecificChannel.data_callback
            (SpecificChannel.data_callback scenario_handler scenario_sample_1)
            scenario_sample_2))
      (name scenario_sample_1)
    = Some (Some scenario_sample_2).
Proof.
  split; [reflexivity|].
  apply (data_callback_overwrites scenario_handler scenario_sample_1 scenario_sample_2).
  reflexivity.
Defined.

Example scenario_unknown_delivery :
  SpecificChannel.last_value
    (SpecificChannel.data_callback scenario_handler scenario_sample_unknown)
  = [ ("blockDrv.BD_Cycles", None); ("rateGroup1.RgMaxTime", Some scenario_sample_unknown) ].
Proof. reflexivity. Qed.

(** C9: [data_callback] is total, and its key set is the old key set with
    the sample's name added.  For a sample whose name is no key of the
    dictionary the handler was constructed with, the sample is stored
    under a new key appended to the mapping, and the key set is no longer
    the dictionary's. *)
Theorem data_callback_adds_unknown_name :
  (∀ (self : SpecificChannel.t) (data : ChData),
     PyDict.key_set (SpecificChannel.last_value (SpecificChannel.data_callback self data))
     = PyDict.key_set (SpecificChannel.last_value self) ∪ {[name data]})
  ∧ (∀ (channels_by_name : PyDict.t ChTemplate) (n : string)
       (self : SpecificChannel.t) (data : ChData),
       SpecificChannel.__init__ channels_by_name n = inr self →
       name data ∉ PyDict.keys channels_by_name →
       let self' := SpecificChannel.data_callback self data in
       PyDict.get (SpecificChannel.last_value self') (name data) = Some (Some data)
       ∧ PyDict.keys (SpecificChannel.last_value self')
         = PyDict.keys (SpecificChannel.last_value self) ++ [name data]
       ∧ PyDict.key_set (SpecificChannel.last_value self')
         = PyDict.key_set channels_by_name ∪ {[name data]}
       ∧ (PyDict.key_set (SpecificChannel.last_value self')
          ≠ PyDict.key_set channels_by_name)).
Proof.
  split; [apply key_set_data_callback|].
  intros d n self data Hinit Hnew. cbv zeta.
  assert (Hks : PyDict.key_set (SpecificChannel.last_value self) = PyDict.key_set d).
  { rewrite (init_last_value _ _ _ Hinit). apply PyDictFacts.comprehension_key_set. }
  assert (Hnew' : name data ∉ PyDict.keys (SpecificChannel.last_value self)).
  { by rewrite <- elem_of_key_set, Hks, elem_of_key_set. }
  split_and!.
  - rewrite get_data_callback. by rewrite decide_True.
  - unfold SpecificChannel.data_callback. simpl.
    by apply PyDictFacts.keys_setitem_notin.
  - by rewrite key_set_data_callback, Hks.
  - rewrite key_set_data_callback, Hks. intros Heq.
    apply Hnew, elem_of_key_set. rewrite <- Heq. set_solver.
Qed.

Lemma data_callback_adds_unknown_name_witness :
  SpecificChannel.__init__ scenario_dictionary "blockDrv.BD_Cycles" = inr scenario_handler
  ∧ (name scenario_sample_unknown ∉ PyDict.keys scenario_dictionary)
  ∧ PyDict.get
      (SpecificChannel.last_value
         (SpecificChannel.data_callback scenario_handler scenario_sample_unknown))
      (name scenario_sample_unknown)
    = Some (Some scenario_sample_unknown).
Proof.
  assert (Hnew : name scenario_sample_unknown ∉ PyDict.keys scenario_dictionary).
  { simpl. intros Hin. apply list_elem_of_singleton in Hin. discriminate Hin. }
  split; [reflexivity|]. split; [exact Hnew|].
  exact (proj1 (proj2 data_callback_adds_unknown_name scenario_dictionary
                  "blockDrv.BD_Cycles" scenario_handler scenario_sample_unknown
                  eq_refl Hnew)).
Defined.

(** C10: [data_callback] leaves [id] as it is and does not read it: the
    mapping it produces is the same whatever [id] holds, and the sample is
    stored whether or not its channel identifier is the handler's. *)
Theorem data_callback_ignores_id :
  (∀ (self : SpecificChannel.t) (data : ChData),
     SpecificChannel.id (SpecificChannel.data_callback self data) = SpecificChannel.id self)
  ∧ (∀ (last_value : PyDict.t (option ChData)) (id1 id2 : Z) (data : ChData),
       SpecificChannel.last_value
         (SpecificChannel.data_callback (SpecificChannel.mk last_value id1) data)
       = SpecificChannel.last_value
           (SpecificChannel.data_callback (SpecificChannel.mk last_value id2) data))
  ∧ (∀ (self : SpecificChannel.t) (data : ChData),
       PyDict.get (SpecificChannel.last_value (SpecificChannel.data_callback self data))
         (name data)
       = Some (Some data)).
Proof.
  split_and!.
  - reflexivity.
  - reflexivity.
  - intros self data. rewrite get_data_callback. by rewrite decide_True.
Qed.

(** A sample whose identifier is not the one resolved at construction. *)
Example data_callback_no_filter :
  data_id scenario_sample_unknown ≠ SpecificChannel.id scenario_handler
  ∧ PyDict.get
      (SpecificChannel.last_value
         (SpecificChannel.data_callback scenario_handler scenario_sample_unknown))
      "rateGroup1.RgMaxTime"
    = Some (Some scenario_sample_unknown).
Proof. split; [discriminate | reflexivity]. Qed.

(** ** The argument extension *)

(** C8: [get_arguments] declares one option, [--channel-name], stored as
    [channel_name] and required, with a help text and nothing else: no
    default, no type conversion, no choices, no action.  [handle_arguments]
    returns the namespace it was given, whatever the keyword arguments. *)
Theorem channel_name_parser_contract :
  (∃ kwargs,
     ChannelNameParser.get_arguments = [ (["--channel-name"], kwargs) ]
     ∧ PyDict.get kwargs "dest" = Some (PyStr "channel_name")
     ∧ PyDict.get kwargs "required" = Some (PyBool true)
     ∧ PyDict.key_set kwargs = {["dest"; "help"; "required"]}
     ∧ PyDict.get kwargs "default" = None
     ∧ PyDict.get kwargs "type" = None
     ∧ PyDict.get kwargs "choices" = None
     ∧ PyDict.get kwargs "action" = None
     ∧ PyDict.get kwargs "nargs" = None)
  ∧ (∀ (Args : Type) (args : Args) (kwargs : PyDict.t pyval),
       ChannelNameParser.handle_arguments args kwargs = args).
Proof.
  split; [|reflexivity].
  eexists. split; [reflexivity|].
  split_and!; reflexivity.
Qed.

(** ** The driver *)

Section DriverFacts.
Implicit Types (w : World) (st : State) (e : exn).

Lemma bind_eq {A B : Type} (m : M A) (f : A → M B) w st :
  (m ≫= f) w st
  = match m w st with
    | (st', Ret a) => f a w st'
    | (st', Raise e) => (st', Raise e)
    | (st', OutOfFuel) => (st', OutOfFuel)
    end.
Proof. reflexivity. Qed.

(** Dispatching samples touches the heap and nothing else. *)
Lemma hand_over_rest data (rs : list ref) st :
  events (foldl (hand_over data) st rs) = events st
  ∧ frame (foldl (hand_over data) st rs) = frame st
  ∧ consumers (foldl (hand_over data) st rs) = consumers st
  ∧ sleeps (foldl (hand_over data) st rs) = sleeps st.
Proof.
  revert st. induction rs as [|r rs IH]; intros st; [done|].
  simpl. destruct (IH (hand_over data st r)) as (-> & -> & -> & ->).
  unfold hand_over. by destruct (heap st !! r).
Qed.

Lemma dispatch_rest st data :
  events (dispatch st data) = events st
  ∧ frame (dispatch st data) = frame st
  ∧ consumers (dispatch st data) = consumers st
  ∧ sleeps (dispatch st data) = sleeps st.
Proof. apply hand_over_rest. Qed.

Lemma dispatch_all_rest st (samples : list ChData) :
  events (foldl dispatch st samples) = events st
  ∧ frame (foldl dispatch st samples) = frame st
  ∧ consumers (foldl dispatch st samples) = consumers st
  ∧ sleeps (foldl dispatch st samples) = sleeps st.
Proof.
  revert st. induction samples as [|data samples IH]; intros st; [done|].
  simpl. destruct (IH (dispatch st data)) as (-> & -> & -> & ->).
  apply dispatch_rest.
Qed.

Lemma receive_rest w st :
  events (receive w st) = events st
  ∧ frame (receive w st) = frame st
  ∧ consumers (receive w st) = consumers st
  ∧ sleeps (receive w st) = S (sleeps st).
Proof.
  unfold receive. simpl.
  destruct (dispatch_all_rest st (arrivals w (sleeps st))) as (-> & -> & -> & _).
  done.
Qed.

(** The name that the loop reads is bound nowhere. *)
Lemma load_chanbel_handler w st :
  load_global "chanbel_handler" w st
  = (st, Raise (Exn NameError "name 'chanbel_handler' is not defined")).
Proof. reflexivity. Qed.

(** One turn of the loop never comes to its end: either [time.sleep]
    raises, or reading [chanbel_handler] does. *)
Lemma main_loop_body_raises w st :
  main_loop_body w st
  = (log (EvCall (Sleep 60) (raised (sleep w (sleeps st)))) (receive w st),
     Raise match sleep w (sleeps st) with
           | inl e => e
           | inr _ => Exn NameError "name 'chanbel_handler' is not defined"
           end).
Proof.
  unfold main_loop_body. rewrite bind_eq. unfold call_sleep, extern.
  destruct (sleep w (sleeps st)) as [e|[]]; [done|].
  cbn [lift mret M_ret raised]. rewrite bind_eq, load_chanbel_handler. done.
Qed.

Lemma while_true_raises fuel (body : M unit) w st st' e :
  body w st = (st', Raise e) → while_true (S fuel) body w st = (st', Raise e).
Proof. intros Hbody. cbn [while_true]. rewrite bind_eq. by rewrite Hbody. Qed.

(** The loop stops in its first turn. *)
Lemma main_loop_once fuel w st :
  while_true (S fuel) main_loop_body w st = main_loop_body w st.
Proof.
  rewrite (main_loop_body_raises w st). apply while_true_raises, main_loop_body_raises.
Qed.

(** The body of the [try] statement follows one of the seven ways. *)
Lemma main_try_path w fuel :
  ∃ st out, main_try fuel w initial_state = (st, out) ∧ try_path w fuel st out.
Proof.
  destruct (parse_args w) as [e|a] eqn:Hpa.
  { eexists _, _. split.
    - unfold main_try, main_setup, mbind, M_bind, extern. rewrite Hpa. cbn. reflexivity.
    - by eapply path_parse_args. }
  destruct (pipeline_factory w a) as [e|p] eqn:Hpf.
  { eexists _, _. split.
    - unfold main_try, main_setup, mbind, M_bind, extern. rewrite Hpa. cbn. rewrite Hpf. cbn.
      reflexivity.
    - by eapply path_pipeline_factory. }
  destruct (SpecificChannel.__init__ (dictionaries_channel_name p) (channel_name a))
    as [e|h] eqn:Hinit.
  { eexists _, _. split.
    - unfold main_try, main_setup, mbind, M_bind, extern. rewrite Hpa. cbn. rewrite Hpf.
      cbn -[SpecificChannel.__init__]. rewrite Hinit. cbn. reflexivity.
    - by eapply path_init. }
  destruct (register_channel_consumer w) as [e|[]] eqn:Hreg.
  { eexists _, _. split.
    - unfold main_try, main_setup, mbind, M_bind, extern. rewrite Hpa. cbn. rewrite Hpf.
      cbn -[SpecificChannel.__init__]. rewrite Hinit. cbn.
      unfold call_register, extern. rewrite Hreg. cbn. reflexivity.
    - by eapply path_register. }
  destruct fuel as [|fuel].
  { eexists _, _. split.
    - unfold main_try, main_setup, mbind, M_bind, extern. rewrite Hpa. cbn. rewrite Hpf.
      cbn -[SpecificChannel.__init__]. rewrite Hinit. cbn.
      unfold call_register, extern. rewrite Hreg. cbn. reflexivity.
    - by eapply path_out_of_fuel. }
  eexists _, _. split.
  { unfold main_try, main_setup, mbind, M_bind, extern. rewrite Hpa.
    cbn -[SpecificChannel.__init__ while_true main_loop_body]. rewrite Hpf.
    cbn -[SpecificChannel.__init__ while_true main_loop_body]. rewrite Hinit.
    cbn -[while_true main_loop_body].
    unfold call_register, extern. rewrite Hreg. cbn -[while_true main_loop_body].
    rewrite main_loop_once, main_loop_body_raises. reflexivity. }
  cbn [sleeps]. destruct (sleep w 0) as [e|[]] eqn:Hsl.
  - eapply path_sleep; [lia|done..| |].
    + cbn [log events raised]. by rewrite (proj1 (receive_rest _ _)).
    + cbn [log frame]. by rewrite (proj1 (proj2 (receive_rest _ _))).
  - eapply path_dump_data; [lia|done..| |].
    + cbn [log events raised]. by rewrite (proj1 (receive_rest _ _)).
    + cbn [log frame]. by rewrite (proj1 (proj2 (receive_rest _ _))).
Qed.

(** *** After the [try] body *)

Lemma main_disconnect_bound w st p :
  pipeline (frame st) = Some p →
  main_disconnect w st
  = (log (EvCall Disconnect (raised (disconnect w))) st, finished (disconnect w)).
Proof.
  intros Hp. unfold main_disconnect. rewrite bind_eq. unfold load_fast.
  rewrite Hp. unfold extern. by destruct (disconnect w).
Qed.

Lemma main_disconnect_unbound w st :
  pipeline (frame st) = None →
  ∃ e, main_disconnect w st = (st, Raise e) ∧ exn_cls e = UnboundLocalError.
Proof.
  intros Hp. unfold main_disconnect. rewrite bind_eq. unfold load_fast.
  rewrite Hp. by eexists.
Qed.

Lemma on_KeyError_bound w st p key :
  pipeline (frame st) = Some p →
  on_KeyError key w st
  = (log (EvPrint Stderr (unknown_channel_message w key p)) st, Ret tt).
Proof.
  intros Hp. unfold on_KeyError. rewrite bind_eq. unfold load_fast. rewrite Hp.
  reflexivity.
Qed.

Lemma on_KeyError_unbound w st key :
  pipeline (frame st) = None →
  ∃ e, on_KeyError key w st = (st, Raise e) ∧ exn_cls e = UnboundLocalError.
Proof.
  intros Hp. unfold on_KeyError. rewrite bind_eq. unfold load_fast.
  rewrite Hp. by eexists.
Qed.

(** [main] in terms of how the [try] body ended. *)
Lemma run_eq w fuel st out :
  main_try fuel w initial_state = (st, out) →
  run fuel w
  = match out with
    | Ret _ => main_disconnect w st
    | OutOfFuel => (st, OutOfFuel)
    | Raise e =>
        if issubclass (exn_cls e) KeyboardInterrupt then main_disconnect w st
        else if issubclass (exn_cls e) KeyError
             then (on_KeyError e;; main_disconnect) w st
        else if issubclass (exn_cls e) Exception
             then (on_Exception e;; main_disconnect) w st
        else (st, Raise e)
    end.
Proof.
  intros Htry. unfold run, main. rewrite bind_eq. unfold try_except.
  rewrite Htry. destruct out as [[]|e|]; [done| |done].
  cbn [find fst snd].
  destruct (issubclass (exn_cls e) KeyboardInterrupt); [done|].
  destruct (issubclass (exn_cls e) KeyError); [by rewrite bind_eq|].
  destruct (issubclass (exn_cls e) Exception); [by rewrite bind_eq|].
  done.
Qed.

(** The run when the [try] body stopped with the pipeline bound. *)
Lemma run_bound w fuel st e p :
  main_try fuel w initial_state = (st, Raise e) →
  pipeline (frame st) = Some p →
  run fuel w
  = if issubclass (exn_cls e) KeyboardInterrupt
    then (log (EvCall Disconnect (raised (disconnect w))) st, finished (disconnect w))
    else if issubclass (exn_cls e) KeyError
    then (log (EvCall Disconnect (raised (disconnect w)))
            (log (EvPrint Stderr (unknown_channel_message w e p)) st),
          finished (disconnect w))
    else if issubclass (exn_cls e) Exception
    then (log (EvCall Disconnect (raised (disconnect w)))
            (log (EvPrint Stderr (failure_message w e)) st),
          finished (disconnect w))
    else (st, Raise e).
Proof.
  intros Htry Hp. rewrite (run_eq _ _ _ _ Htry).
  destruct (issubclass (exn_cls e) KeyboardInterrupt).
  { by apply (main_disconnect_bound _ _ p). }
  destruct (issubclass (exn_cls e) KeyError).
  { rewrite bind_eq, (on_KeyError_bound _ _ p) by done.
    by rewrite (main_disconnect_bound _ _ p). }
  destruct (issubclass (exn_cls e) Exception); [|done].
  rewrite bind_eq. unfold on_Exception, print.
  by rewrite (main_disconnect_bound _ _ p).
Qed.

(** The run when the [try] body stopped before the pipeline was bound:
    nothing is called any more, and [main] ends by an exception. *)
Lemma run_unbound w fuel st e :
  main_try fuel w initial_state = (st, Raise e) →
  pipeline (frame st) = None →
  ∃ tail e',
    events (run fuel w).1 = events st ++ tail
    ∧ calls tail = [] ∧ written Stdout tail = []
    ∧ (run fuel w).2 = Raise e'.
Proof.
  intros Htry Hp. rewrite (run_eq _ _ _ _ Htry).
  destruct (issubclass (exn_cls e) KeyboardInterrupt).
  { destruct (main_disconnect_unbound w st Hp) as (e' & -> & _).
    exists [], e'. by rewrite app_nil_r. }
  destruct (issubclass (exn_cls e) KeyError).
  { rewrite bind_eq. destruct (on_KeyError_unbound w st e Hp) as (e' & -> & _).
    exists [], e'. by rewrite app_nil_r. }
  destruct (issubclass (exn_cls e) Exception).
  { rewrite bind_eq. unfold on_Exception, print.
    edestruct (main_disconnect_unbound w) as (e' & -> & _); [|by eexists [_], e'].
    done. }
  exists [], e. by rewrite app_nil_r.
Qed.

(** What the [try] body leaves behind on each of its ways. *)
Lemma try_path_events w fuel st out :
  try_path w fuel st out →
  written Stdout (events st) = []
  ∧ written Stderr (events st) = []
  ∧ (length (filter is_sleep (calls (events st))) ≤ 1)%nat
  ∧ (Disconnect ∉ calls (events st))
  ∧ pipeline (frame st) = pipeline_constructed w.
Proof.
  unfold pipeline_constructed.
  destruct 1 as [e st Hpa Hev Hfr|a e st Hpa Hpf Hev Hfr|a p e st Hpa Hpf _ Hev Hfr
                |a p h e st Hpa Hpf _ _ Hev Hfr|a p h st _ Hpa Hpf _ _ Hev Hfr
                |a p h e st _ Hpa Hpf _ _ _ Hev Hfr|a p h st _ Hpa Hpf _ _ _ Hev Hfr];
    rewrite Hev, Hfr, Hpa, ?Hpf; cbn; (split_and!; [done|done|cbv; lia| |done]);
    intros Hin; repeat (apply elem_of_cons in Hin as [Hin|Hin]; [discriminate Hin|]);
    by apply elem_of_nil in Hin.
Qed.

(** Every run, whatever the framework answers: what comes after the [try]
    body is at most one line on standard error and the call of
    [disconnect]. *)
Lemma run_tail w fuel st out :
  main_try fuel w initial_state = (st, out) →
  ∃ tail,
    events (run fuel w).1 = events st ++ tail
    ∧ written Stdout tail = []
    ∧ (calls tail = [] ∨ calls tail = [Disconnect]).
Proof.
  intros Htry. destruct out as [[]|e|].
  - rewrite (run_eq _ _ _ _ Htry).
    destruct (pipeline (frame st)) as [p|] eqn:Hp.
    + rewrite (main_disconnect_bound _ _ p) by done. eexists [_]. eauto.
    + destruct (main_disconnect_unbound w st Hp) as (e' & -> & _).
      exists []. rewrite app_nil_r. eauto.
  - destruct (pipeline (frame st)) as [p|] eqn:Hp.
    + rewrite (run_bound _ _ _ _ p Htry Hp).
      destruct (issubclass (exn_cls e) KeyboardInterrupt); [eexists [_]; eauto|].
      destruct (issubclass (exn_cls e) KeyError).
      { eexists [_; _]. cbn. rewrite <- app_assoc. eauto. }
      destruct (issubclass (exn_cls e) Exception).
      { eexists [_; _]. cbn. rewrite <- app_assoc. eauto. }
      exists []. rewrite app_nil_r. eauto.
    + destruct (run_unbound _ _ _ _ Htry Hp) as (tail & e' & -> & Hc & Hs & _).
      exists tail. eauto.
  - rewrite (run_eq _ _ _ _ Htry). exists []. rewrite app_nil_r. eauto.
Qed.

(** *** Fuel

    One turn of the loop is all a run ever takes: with any fuel but none
    the run is the same, and it does not end for want of fuel. *)
Lemma main_try_fuel w fuel st :
  main_try (S fuel) w st = main_try 1 w st.
Proof.
  unfold main_try. rewrite !bind_eq.
  destruct (main_setup w st) as [st' [[]|e|]]; [|done..].
  by rewrite !main_loop_once.
Qed.

Lemma run_fuel w fuel : run (S fuel) w = run 1 w.
Proof.
  unfold run, main. rewrite !bind_eq. unfold try_except.
  by rewrite main_try_fuel.
Qed.

Lemma run_terminates w fuel :
  (0 < fuel)%nat → (run fuel w).2 ≠ OutOfFuel.
Proof.
  intros Hfuel. destruct (main_try_path w fuel) as (st & out & Htry & Hpath).
  assert (Hout : ∃ e, out = Raise e).
  { destruct Hpath; try (by eexists). lia. }
  destruct Hout as [e ->].
  destruct (pipeline (frame st)) as [p|] eqn:Hp.
  - rewrite (run_bound _ _ _ _ p Htry Hp).
    repeat (case_match; [by destruct (disconnect w)|]). done.
  - by destruct (run_unbound _ _ _ _ Htry Hp) as (tail & e' & _ & _ & _ & ->).
Qed.

End DriverFacts.

Example scenario_run_unknown_name :
  run 1 (scenario_world "doesNotExist" (inr tt))
  = ({| events :=
          [ EvCall ParseArgs None; EvCall PipelineFactory None;
            EvPrint Stderr
              ("[ERROR] Unknown channel name: 'doesNotExist'"
               ++ String nl (str1 tab) ++ "blockDrv.BD_Cycles" ++ str1 nl);
            EvCall Disconnect None ];
        heap := []; consumers := []; sleeps := 0;
        frame := {| arguments := Some {| channel_name := "doesNotExist";
                                         standard_args := [] |};
                    pipeline := Some {| dictionaries_channel_name := scenario_dictionary |};
                    channel_handler := None |} |},
     Ret tt).
Proof. reflexivity. Qed.

(** The samples that arrive while the driver sleeps reach the handler; the
    turn of the loop then ends in the [NameError], which is reported. *)
Example scenario_run_known_name :
  run 1 (scenario_world "blockDrv.BD_Cycles" (inr tt))
  = ({| events :=
          [ EvCall ParseArgs None; EvCall PipelineFactory None;
            EvCall (RegisterChannelConsumer 0) None; EvCall (Sleep 60) None;
            EvPrint Stderr
              ("[ERROR] Failed to run example code: name 'chanbel_handler' is not defined"
               ++ str1 nl);
            EvCall Disconnect None ];
        heap := [ {| SpecificChannel.last_value :=
                       [ ("blockDrv.BD_Cycles", Some scenario_sample_2) ];
                     SpecificChannel.id := 7 |} ];
        consumers := [0]; sleeps := 1;
        frame := {| arguments := Some {| channel_name := "blockDrv.BD_Cycles";
                                         standard_args := [] |};
                    pipeline := Some {| dictionaries_channel_name := scenario_dictionary |};
                    channel_handler := Some 0 |} |},
     Ret tt).
Proof. reflexivity. Qed.

(** *** The text of the messages *)

Lemma string_app_assoc (s1 s2 s3 : string) :
  ((s1 ++ s2) ++ s3 = s1 ++ (s2 ++ s3))%string.
Proof.
  induction s1 as [|c s1 IH]; [reflexivity|].
  change (String c ((s1 ++ s2) ++ s3) = String c (s1 ++ (s2 ++ s3)))%string.
  by rewrite IH.
Qed.

(** The joined names behind the separator, as the lines they make. *)
Lemma join_lines (ks : list string) :
  ((String nl (str1 tab) ++ join (String nl (str1 tab)) ks) ++ str1 nl)%string
  = match ks with
    | [] => String nl (String tab (str1 nl))
    | _ :: _ => foldr (fun k rest => String nl (String tab (k ++ rest))) (str1 nl) ks
    end.
Proof.
  destruct ks as [|k ks]; [reflexivity|].
  revert k. induction ks as [|k' ks IH]; intros k.
  - reflexivity.
  - change (foldr (fun k rest => String nl (String tab (k ++ rest))) (str1 nl)
              (k :: k' :: ks))
      with (String nl (String tab
              (k ++ foldr (fun k rest => String nl (String tab (k ++ rest))) (str1 nl)
                      (k' :: ks))))%string.
    rewrite <- (IH k').
    transitivity (String nl (String tab
                    ((k ++ (String nl (str1 tab)
                            ++ join (String nl (str1 tab)) (k' :: ks)))
                     ++ str1 nl)))%string; [reflexivity|].
    by rewrite string_app_assoc.
Qed.

(** What [repr] does to one plain character. *)
Lemma repr_body_plain_char (c : ascii) (s : string) :
  plain_char c = true →
  Ascii.eqb c squote = false
  ∧ repr_body squote (String c s) = String c (repr_body squote s).
Proof.
  destruct c as [[] [] [] [] [] [] [] []]; intros Hplain;
    try discriminate Hplain; split; reflexivity.
Qed.

Lemma repr_body_plain (s : string) :
  plain s = true → contains squote s = false ∧ repr_body squote s = s.
Proof.
  induction s as [|c s IH]; [done|].
  cbn [plain contains]. intros [Hc Hs]%andb_prop.
  destruct (repr_body_plain_char c s Hc) as [Hq ->].
  destruct (IH Hs) as [-> ->]. by rewrite Hq.
Qed.

Lemma plain_ascii_only (s : string) : plain s = true → ascii_only s = true.
Proof.
  induction s as [|c s IH]; [done|].
  cbn [plain ascii_only]. intros [Hc Hs]%andb_prop. rewrite (IH Hs), andb_true_r.
  revert Hc. destruct c as [[] [] [] [] [] [] [] []]; intros Hc;
    try discriminate Hc; reflexivity.
Qed.

Lemma python_repr_plain (w : World) (s : string) :
  plain s = true → python_repr w s = String squote (s ++ str1 squote).
Proof.
  intros Hplain. unfold python_repr. rewrite (plain_ascii_only _ Hplain).
  destruct (repr_body_plain s Hplain) as [Hq Hbody].
  unfold py_repr. rewrite Hq. cbn [andb]. by rewrite Hbody.
Qed.

(** The text of an exception that is no [KeyError] is its argument. *)
Lemma exn_text_other (w : World) (e : exn) :
  issubclass (exn_cls e) KeyError = false →
  exn_text w e = exn_arg e ∧ exn_str e = exn_arg e.
Proof. intros Hcls. unfold exn_text, exn_str. by rewrite Hcls. Qed.

(** The unknown-channel message, written out. *)
Lemma unknown_channel_message_lines (w : World) (key : exn) (p : Pipeline) :
  unknown_channel_message w key p
  = ("[ERROR] Unknown channel name: " ++ exn_text w key
     ++ match PyDict.keys (dictionaries_channel_name p) with
        | [] => String nl (String tab (str1 nl))
        | _ :: _ =>
            foldr (fun k rest => String nl (String tab (k ++ rest))) (str1 nl)
              (PyDict.keys (dictionaries_channel_name p))
        end)%string.
Proof.
  unfold unknown_channel_message. rewrite <- join_lines.
  by rewrite !string_app_assoc.
Qed.



(** C4: no call of [dump_data] completes, however it is made: with any
    positional arguments and through any module-level object it raises.
    A turn of the driver's loop therefore never comes to its end, so in
    every run [time.sleep] is called at most once, and no run writes a
    line to standard output. *)
Theorem dump_data_never_completes :
  (∀ (positional : list ref) (w : World) (st : State),
     ∃ e, dump_data positional w st = (st, Raise e))
  ∧ (∀ (o : pyobj) (w : World) (st : State),
       ∃ e, call_dump_data o w st = (st, Raise e))
  ∧ (∀ (w : World) (st : State), ∃ st' e, main_loop_body w st = (st', Raise e))
  ∧ (∀ (w : World) (fuel : nat),
       written Stdout (events (run fuel w).1) = []
       ∧ (length (filter is_sleep (calls (events (run fuel w).1))) ≤ 1)%nat).
Proof.
  assert (Hdump : ∀ (positional : list ref) (w : World) (st : State),
             ∃ e, dump_data positional w st = (st, Raise e)).
  { intros [|r rs] w st; by eexists. }
  split_and!.
  - exact Hdump.
  - intros o w st. unfold call_dump_data. case_decide; [apply Hdump | by eexists].
  - intros w st. rewrite main_loop_body_raises. by eexists _, _.
  - intros w fuel.
    destruct (main_try_path w fuel) as (st & out & Htry & Hpath).
    destruct (try_path_events _ _ _ _ Hpath) as (Hout & _ & Hsleep & _ & _).
    destruct (run_tail _ _ _ _ Htry) as (tail & -> & Htail & Hcalls).
    unfold written, calls in *. rewrite !omap_app, filter_app, length_app.
    rewrite Hout, Htail. split; [done|].
    assert (Hnone : filter is_sleep (@nil call) = []) by reflexivity.
    assert (Hdisc : filter is_sleep [Disconnect] = []) by reflexivity.
    destruct Hcalls as [-> | ->]; rewrite ?Hnone, ?Hdisc; cbn [length]; lia.
Qed.

Lemma init_raises_KeyError (channels_by_name : PyDict.t ChTemplate) (n : string) (e : exn) :
  SpecificChannel.__init__ channels_by_name n = inl e → e = Exn KeyError n.
Proof.
  unfold SpecificChannel.__init__, getitem.
  destruct (PyDict.get channels_by_name n); [done|]. by intros [= <-].
Qed.

(** A caught exception with the pipeline bound: [main] ends with the call
    of [disconnect]. *)
Lemma run_caught_bound (w : World) (fuel : nat) (st : State) (e : exn) (p : Pipeline) :
  main_try fuel w initial_state = (st, Raise e) →
  pipeline (frame st) = Some p →
  caught e = true →
  last (events (run fuel w).1) = Some (EvCall Disconnect (raised (disconnect w)))
  ∧ (run fuel w).2 = finished (disconnect w).
Proof.
  intros Htry Hp Hcaught. rewrite (run_bound _ _ _ _ p Htry Hp).
  unfold caught in Hcaught. cbn [existsb] in Hcaught.
  destruct (issubclass (exn_cls e) KeyboardInterrupt).
  { cbn [fst snd log events]. by rewrite last_snoc. }
  destruct (issubclass (exn_cls e) KeyError).
  { cbn [fst snd log events]. by rewrite last_snoc. }
  destruct (issubclass (exn_cls e) Exception); [|discriminate Hcaught].
  cbn [fst snd log events]. by rewrite last_snoc.
Qed.

(** A world in which every call returns; the first turn of the loop then
    ends in the [NameError]. *)
Lemma scenario_world_raises_only_caught :
  (∀ e, register_channel_consumer (scenario_world "blockDrv.BD_Cycles" (inr tt)) = inl e →
        caught e = true)
  ∧ (∀ e, sleep (scenario_world "blockDrv.BD_Cycles" (inr tt)) 0 = inl e →
          caught e = true).
Proof. split; intros e He; discriminate He. Qed.

(** C5: when the pipeline was constructed, every run in which [main]
    returns has the call of [disconnect] as its last event; and whenever
    what is raised after the construction is an interrupt, a lookup
    failure or another [Exception], [main] does come to that call and ends
    as it ends.  When the pipeline was not constructed, [disconnect] is not
    called in the run, and [main] ends by an exception. *)
Theorem main_disconnects_iff_pipeline_constructed :
  (∀ (w : World) (fuel : nat) (p : Pipeline),
     pipeline_constructed w = Some p →
     (run fuel w).2 = Ret tt →
     last (events (run fuel w).1) = Some (EvCall Disconnect None))
  ∧ (∀ (w : World) (fuel : nat) (p : Pipeline),
       (0 < fuel)%nat →
       pipeline_constructed w = Some p →
       (∀ e, register_channel_consumer w = inl e → caught e = true) →
       (∀ e, sleep w 0 = inl e → caught e = true) →
       last (events (run fuel w).1) = Some (EvCall Disconnect (raised (disconnect w)))
       ∧ (run fuel w).2 = finished (disconnect w))
  ∧ (∀ (w : World) (fuel : nat),
       pipeline_constructed w = None →
       (Disconnect ∉ calls (events (run fuel w).1))
       ∧ ∃ e, (run fuel w).2 = Raise e).
Proof.
  split_and!.
  - intros w fuel p Hbuilt Hret.
    destruct (main_try_path w fuel) as (st & out & Htry & Hpath).
    destruct (try_path_events _ _ _ _ Hpath) as (_ & _ & _ & _ & Hfr).
    rewrite Hbuilt in Hfr. destruct out as [[]|e|].
    + inversion Hpath.
    + rewrite (run_bound _ _ _ _ p Htry Hfr) in Hret |- *.
      destruct (issubclass (exn_cls e) KeyboardInterrupt);
        [|destruct (issubclass (exn_cls e) KeyError);
          [|destruct (issubclass (exn_cls e) Exception); [|discriminate Hret]]];
        cbn [fst snd log events] in Hret |- *; rewrite last_snoc;
        by destruct (disconnect w).
    + rewrite (run_eq _ _ _ _ Htry) in Hret. discriminate Hret.
  - intros w fuel p Hfuel Hbuilt Hreg Hsleep.
    destruct (main_try_path w fuel) as (st & out & Htry & Hpath).
    destruct (try_path_events _ _ _ _ Hpath) as (_ & _ & _ & _ & Hfr).
    rewrite Hbuilt in Hfr.
    destruct Hpath as [e st _ _ Hfr'|a e st _ _ _ Hfr'|a p' e st _ _ Hinit _ _
                      |a p' h e st _ _ _ Hreg' _ _|a p' h st Hfuel' _ _ _ _ _ _
                      |a p' h e st _ _ _ _ _ Hsl _ _|a p' h st _ _ _ _ _ _ _ _].
    + rewrite Hfr in Hfr'. discriminate Hfr'.
    + rewrite Hfr in Hfr'. discriminate Hfr'.
    + apply init_raises_KeyError in Hinit as ->.
      by apply (run_caught_bound _ _ _ _ p Htry Hfr).
    + apply (run_caught_bound _ _ _ _ p Htry Hfr). by apply Hreg.
    + lia.
    + apply (run_caught_bound _ _ _ _ p Htry Hfr). by apply Hsleep.
    + by apply (run_caught_bound _ _ _ _ p Htry Hfr).
  - intros w fuel Hnone.
    destruct (main_try_path w fuel) as (st & out & Htry & Hpath).
    destruct (try_path_events _ _ _ _ Hpath) as (_ & _ & _ & Hdisc & Hfr).
    rewrite Hnone in Hfr.
    assert (Hout : ∃ e, out = Raise e).
    { destruct Hpath as [e st _ _ _|a e st _ _ _ _|a p' e st _ _ _ _ Hfr'
                        |a p' h e st _ _ _ _ _ Hfr'|a p' h st _ _ _ _ _ _ Hfr'
                        |a p' h e st _ _ _ _ _ _ _ Hfr'|a p' h st _ _ _ _ _ _ _ Hfr'];
        try (by eexists); rewrite Hfr in Hfr'; discriminate Hfr'. }
    destruct Hout as [e ->].
    destruct (run_unbound _ _ _ _ Htry Hfr) as (tail & e' & -> & Hcalls & _ & ->).
    split; [|by eexists].
    unfold calls in *. by rewrite omap_app, Hcalls, app_nil_r.
Qed.

Lemma main_disconnects_iff_pipeline_constructed_witness :
  (0 < 1)%nat
  ∧ pipeline_constructed (scenario_world "blockDrv.BD_Cycles" (inr tt))
    = Some {| dictionaries_channel_name := scenario_dictionary |}
  ∧ (run 1 (scenario_world "blockDrv.BD_Cycles" (inr tt))).2 = Ret tt
  ∧ pipeline_constructed scenario_world_no_pipeline = None
  ∧ last (events (run 1 (scenario_world "blockDrv.BD_Cycles" (inr tt))).1)
    = Some (EvCall Disconnect None)
  ∧ (last (events (run 1 (scenario_world "blockDrv.BD_Cycles" (inr tt))).1)
     = Some (EvCall Disconnect None)
     ∧ (run 1 (scenario_world "blockDrv.BD_Cycles" (inr tt))).2 = Ret tt)
  ∧ ((Disconnect ∉ calls (events (run 1 scenario_world_no_pipeline).1))
     ∧ ∃ e, (run 1 scenario_world_no_pipeline).2 = Raise e).
Proof.
  split; [lia|]. split; [reflexivity|]. split; [reflexivity|].
  split; [reflexivity|]. split_and!.
  - exact (proj1 main_disconnects_iff_pipeline_constructed
             (scenario_world "blockDrv.BD_Cycles" (inr tt)) 1
             {| dictionaries_channel_name := scenario_dictionary |}
             eq_refl eq_refl).
  - exact (proj1 (proj1 (proj2 main_disconnects_iff_pipeline_constructed)
             (scenario_world "blockDrv.BD_Cycles" (inr tt)) 1
             {| dictionaries_channel_name := scenario_dictionary |}
             (Nat.lt_0_succ 0) eq_refl
             (proj1 scenario_world_raises_only_caught)
             (proj2 scenario_world_raises_only_caught))).
  - exact (proj2 (proj1 (proj2 main_disconnects_iff_pipeline_constructed)
             (scenario_world "blockDrv.BD_Cycles" (inr tt)) 1
             {| dictionaries_channel_name := scenario_dictionary |}
             (Nat.lt_0_succ 0) eq_refl
             (proj1 scenario_world_raises_only_caught)
             (proj2 scenario_world_raises_only_caught))).
  - exact (proj1 (proj2 (proj2 main_disconnects_iff_pipeline_constructed)
             scenario_world_no_pipeline 1 eq_refl)).
  - exact (proj2 (proj2 (proj2 main_disconnects_iff_pipeline_constructed)
             scenario_world_no_pipeline 1 eq_refl)).
Defined.

Example scenario_run_no_pipeline :
  events (run 1 scenario_world_no_pipeline).1
  = [ EvCall ParseArgs None;
      EvCall PipelineFactory (Some (Exn OtherError "connection refused"));
      EvPrint Stderr ("[ERROR] Failed to run example code: connection refused" ++ str1 nl) ]
  ∧ exn_cls <$> (match (run 1 scenario_world_no_pipeline).2 with
                 | Raise e => Some e
                 | _ => None
                 end) = Some UnboundLocalError.
Proof. split; reflexivity. Qed.

(** C6: if a run contains a call of [time.sleep] that was ended by a
    [KeyboardInterrupt], nothing was written to standard error or to
    standard output in that run, the last call of the run is [disconnect],
    and [main] ends as that call ends: it returns when [disconnect]
    returns. *)
Theorem interrupt_in_sleep_is_silent (w : World) (fuel : nat) (secs : Z) (e : exn) :
  EvCall (Sleep secs) (Some e) ∈ events (run fuel w).1 →
  exn_cls e = KeyboardInterrupt →
  written Stderr (events (run fuel w).1) = []
  ∧ written Stdout (events (run fuel w).1) = []
  ∧ last (events (run fuel w).1) = Some (EvCall Disconnect (raised (disconnect w)))
  ∧ (run fuel w).2 = finished (disconnect w).
Proof.
  intros Hin Hcls.
  destruct (main_try_path w fuel) as (st & out & Htry & Hpath).
  destruct (run_tail _ _ _ _ Htry) as (tail & Hev & _ & Hcalls).
  rewrite Hev in Hin. apply elem_of_app in Hin as [Hin|Hin]; cycle 1.
  { assert (Hc : Sleep secs ∈ calls tail).
    { unfold calls. apply list_elem_of_omap. by eexists (EvCall _ _). }
    destruct Hcalls as [Hcalls|Hcalls]; rewrite Hcalls in Hc.
    - by apply elem_of_nil in Hc.
    - apply list_elem_of_singleton in Hc. discriminate Hc. }
  clear Hev Hcalls tail.
  destruct Hpath as [e0 st _ Hev _|a e0 st _ _ Hev _|a p e0 st _ _ _ Hev _
                    |a p h e0 st _ _ _ _ Hev _|a p h st _ _ _ _ _ Hev _
                    |a p h e0 st _ _ _ _ _ _ Hev Hfr|a p h st _ _ _ _ _ _ Hev _];
    rewrite Hev in Hin;
    repeat (apply elem_of_cons in Hin as [Hin|Hin]; [try discriminate Hin|]);
    try (by apply elem_of_nil in Hin).
  injection Hin as -> <-.
  rewrite (run_bound _ _ _ _ p Htry Hfr). rewrite Hcls.
  change (issubclass KeyboardInterrupt KeyboardInterrupt) with true.
  cbn [fst snd log events]. rewrite Hev, last_snoc. done.
Qed.

Lemma interrupt_in_sleep_is_silent_witness :
  EvCall (Sleep 60) (Some scenario_interrupt)
    ∈ events (run 1 (scenario_world "blockDrv.BD_Cycles" (inl scenario_interrupt))).1
  ∧ exn_cls scenario_interrupt = KeyboardInterrupt
  ∧ written Stderr
      (events (run 1 (scenario_world "blockDrv.BD_Cycles" (inl scenario_interrupt))).1) = []
  ∧ written Stdout
      (events (run 1 (scenario_world "blockDrv.BD_Cycles" (inl scenario_interrupt))).1) = []
  ∧ last (events (run 1 (scenario_world "blockDrv.BD_Cycles" (inl scenario_interrupt))).1)
    = Some (EvCall Disconnect None)
  ∧ (run 1 (scenario_world "blockDrv.BD_Cycles" (inl scenario_interrupt))).2 = Ret tt.
Proof.
  assert (Hin : EvCall (Sleep 60) (Some scenario_interrupt)
                  ∈ events (run 1 (scenario_world "blockDrv.BD_Cycles"
                                     (inl scenario_interrupt))).1).
  { vm_compute. do 3 apply list_elem_of_further. apply list_elem_of_here. }
  split; [exact Hin|]. split; [reflexivity|].
  exact (interrupt_in_sleep_is_silent
           (scenario_world "blockDrv.BD_Cycles" (inl scenario_interrupt)) 1 60
           scenario_interrupt Hin eq_refl).
Defined.

(** * Further properties *)

(** ** Construction *)

Section MoreHandlerFacts.
Import PyDict PyDictFacts SpecificChannel.
Implicit Types (self : SpecificChannel.t) (data : ChData) (k : string).

Lemma setitem_notin {V : Type} (d : PyDict.t V) k (v : V) :
  k ∉ keys d → setitem d k v = d ++ [(k, v)].
Proof.
  induction d as [|[k' v'] d IH]; cbn [setitem keys fmap list_fmap map fst app].
  - done.
  - intros Hnin. apply not_elem_of_cons in Hnin as [Hne Hnin].
    rewrite decide_False by done. by rewrite IH.
Qed.

Lemma foldl_setitem_fresh {V : Type} (ks : list string) (v : V) (d : PyDict.t V) :
  NoDup ks → (∀ k, k ∈ ks → k ∉ keys d) →
  foldl (fun d k => setitem d k v) d ks = d ++ ((fun k => (k, v)) <$> ks).
Proof.
  revert d. induction ks as [|k0 ks IH]; intros d Hnd Hdisj; cbn [foldl fmap list_fmap].
  - by rewrite app_nil_r.
  - apply NoDup_cons in Hnd as [Hk0 Hnd].
    rewrite IH; [|done|].
    + rewrite setitem_notin by (apply Hdisj; by left).
      by rewrite <- app_assoc.
    + intros k Hk. rewrite elem_of_keys_setitem.
      intros [->|Hin]; [done|]. apply (Hdisj k); [by right | done].
Qed.

Lemma keys_prefix_setitem {V : Type} (d : PyDict.t V) k (v : V) :
  keys d `prefix_of` keys (setitem d k v).
Proof.
  destruct (decide (k ∈ keys d)) as [Hin|Hnin].
  - by rewrite keys_setitem_in.
  - rewrite keys_setitem_notin by done. by apply prefix_app_r.
Qed.

Lemma length_setitem {V : Type} (d : PyDict.t V) k (v : V) :
  length (setitem d k v) = if decide (k ∈ keys d) then length d else S (length d).
Proof.
  case_decide as Hin.
  - rewrite <- (length_fmap fst (setitem d k v)), <- (length_fmap fst d).
    change (fst <$> setitem d k v) with (keys (setitem d k v)).
    change (fst <$> d) with (keys d). by rewrite keys_setitem_in.
  - rewrite setitem_notin by done. rewrite length_app. cbn. lia.
Qed.

(** Two writes under different keys can be swapped unless both keys are
    new, in which case only the order of the two new entries differs. *)
Lemma setitem_comm {V : Type} (d : PyDict.t V) k1 k2 (v1 v2 : V) :
  k1 ≠ k2 → k1 ∈ keys d ∨ k2 ∈ keys d →
  setitem (setitem d k1 v1) k2 v2 = setitem (setitem d k2 v2) k1 v1.
Proof.
  intros Hne. induction d as [|[k' v'] d IH]; intros Hin.
  - destruct Hin as [Hin|Hin]; by apply elem_of_nil in Hin.
  - cbn [setitem].
    destruct (decide (k' = k1)) as [->|Hk1].
    + rewrite (decide_False (P := k1 = k2)) by done. cbn [setitem].
      rewrite (decide_False (P := k1 = k2)) by done. by rewrite decide_True.
    + destruct (decide (k' = k2)) as [->|Hk2]; cbn [setitem].
      * rewrite decide_True by done. by rewrite decide_False.
      * rewrite !decide_False by done. f_equal. apply IH.
        cbn [keys fmap list_fmap map fst] in Hin. rewrite !elem_of_cons in Hin.
        destruct Hin as [[?|?]|[?|?]]; [congruence|by left|congruence|by right].
Qed.

Lemma deliver_cons self data (samples : list ChData) :
  deliver self (data :: samples) = deliver (data_callback self data) samples.
Proof. reflexivity. Qed.

End MoreHandlerFacts.


(** X1: construction succeeds exactly for the names that are keys of the
    dictionary, and the handler's [id] is then the [id] of the entry that
    the dictionary holds under the name. *)
Theorem init_succeeds_iff_known (channels_by_name : PyDict.t ChTemplate) (n : string) :
  ((∃ self, SpecificChannel.__init__ channels_by_name n = inr self)
   ↔ n ∈ PyDict.keys channels_by_name)
  ∧ (∀ self, SpecificChannel.__init__ channels_by_name n = inr self →
       ch_id <$> PyDict.get channels_by_name n = Some (SpecificChannel.id self)).
Proof.
  split.
  - split.
    + intros [self Hinit].
      destruct (decide (n ∈ PyDict.keys channels_by_name)) as [Hin|Hnin]; [done|].
      rewrite (init_unknown _ _ Hnin) in Hinit. discriminate Hinit.
    + intros [entry Hentry]%PyDictFacts.get_Some_keys.
      eexists. by apply init_known.
  - intros self. unfold SpecificChannel.__init__, getitem.
    destruct (PyDict.get channels_by_name n) as [entry|]; [|done].
    by intros [= <-].
Qed.

Lemma init_succeeds_iff_known_witness :
  SpecificChannel.__init__ scenario_dictionary_2 "rateGroup1.RgMaxTime"
  = inr {| SpecificChannel.last_value :=
             [ ("blockDrv.BD_Cycles", None); ("rateGroup1.RgMaxTime", None) ];
           SpecificChannel.id := 12 |}
  ∧ ch_id <$> PyDict.get scenario_dictionary_2 "rateGroup1.RgMaxTime" = Some 12%Z.
Proof.
  split; [reflexivity|].
  exact (proj2 (init_succeeds_iff_known scenario_dictionary_2 "rateGroup1.RgMaxTime")
           _ eq_refl).
Defined.

(** X2: over a dictionary with unique keys, the last-value mapping that
    construction builds is the list of the dictionary's keys, in the
    dictionary's order, each paired with [None]; it is the same for every
    known name. *)
Theorem init_keeps_key_order (channels_by_name : PyDict.t ChTemplate) (n : string)
    (self : SpecificChannel.t) :
  NoDup (PyDict.keys channels_by_name) →
  SpecificChannel.__init__ channels_by_name n = inr self →
  SpecificChannel.last_value self = (fun k => (k, None)) <$> PyDict.keys channels_by_name
  ∧ PyDict.keys (SpecificChannel.last_value self) = PyDict.keys channels_by_name.
Proof.
  intros Hnd Hinit. rewrite (init_last_value _ _ _ Hinit). split.
  - unfold PyDict.comprehension. rewrite foldl_setitem_fresh; [done..|].
    intros k _. apply not_elem_of_nil.
  - by apply PyDictFacts.comprehension_keys.
Qed.

Lemma init_keeps_key_order_witness :
  NoDup (PyDict.keys scenario_dictionary_2)
  ∧ SpecificChannel.__init__ scenario_dictionary_2 "blockDrv.BD_Cycles"
    = inr {| SpecificChannel.last_value :=
               [ ("blockDrv.BD_Cycles", None); ("rateGroup1.RgMaxTime", None) ];
             SpecificChannel.id := 7 |}
  ∧ PyDict.keys [ ("blockDrv.BD_Cycles", @None ChData); ("rateGroup1.RgMaxTime", None) ]
    = PyDict.keys scenario_dictionary_2.
Proof.
  assert (Hnd : NoDup (PyDict.keys scenario_dictionary_2)).
  { cbn. apply NoDup_cons. split; [|apply NoDup_singleton].
    intros Hin. apply list_elem_of_singleton in Hin. discriminate Hin. }
  split; [exact Hnd|]. split; [reflexivity|].
  exact (proj2 (init_keeps_key_order scenario_dictionary_2 "blockDrv.BD_Cycles" _
                  Hnd eq_refl)).
Defined.

(** ** Sequences of deliveries *)

(** X3: after a sequence of deliveries, the entry under a name holds the
    last sample of the sequence that carries the name; a name that no
    sample of the sequence carries has the entry it had. *)
Theorem deliver_last_wins (self : SpecificChannel.t) (samples : list ChData) (k : string) :
  PyDict.get (SpecificChannel.last_value (SpecificChannel.deliver self samples)) k
  = match last (filter (fun data => name data = k) samples) with
    | Some data => Some (Some data)
    | None => PyDict.get (SpecificChannel.last_value self) k
    end.
Proof.
  revert self. induction samples as [|data samples IH]; intros self.
  - done.
  - rewrite deliver_cons, IH, get_data_callback.
    destruct (decide (name data = k)) as [Hk|Hk].
    + rewrite filter_cons_True by done. rewrite last_cons.
      by destruct (last (filter (fun data => name data = k) samples)).
    + by rewrite filter_cons_False by done.
Qed.

(** X4: deliveries add keys and never remove or move one: the key set
    after a sequence of deliveries is the old key set with the names of
    the samples added, and the old keys come first, in their old order. *)
Theorem deliver_keys (self : SpecificChannel.t) (samples : list ChData) :
  PyDict.key_set (SpecificChannel.last_value (SpecificChannel.deliver self samples))
  = PyDict.key_set (SpecificChannel.last_value self) ∪ list_to_set (name <$> samples)
  ∧ PyDict.keys (SpecificChannel.last_value self)
    `prefix_of` PyDict.keys (SpecificChannel.last_value (SpecificChannel.deliver self samples)).
Proof.
  revert self. induction samples as [|data samples IH]; intros self.
  - split; [cbn; set_solver | done].
  - rewrite deliver_cons. destruct (IH (SpecificChannel.data_callback self data))
      as [-> Hprefix].
    split.
    + rewrite key_set_data_callback, fmap_cons, list_to_set_cons. set_solver.
    + etrans; [|exact Hprefix]. apply keys_prefix_setitem.
Qed.

(** X5: from construction on and through any deliveries, the mapping holds
    one entry per name (its keys are unique), [id] is the one resolved at
    construction, and the mapping has at least the entries it started with
    and at most one more per sample. *)
Theorem deliver_invariants (channels_by_name : PyDict.t ChTemplate) (n : string)
    (self : SpecificChannel.t) (samples : list ChData) :
  SpecificChannel.__init__ channels_by_name n = inr self →
  NoDup (PyDict.keys (SpecificChannel.last_value (SpecificChannel.deliver self samples)))
  ∧ SpecificChannel.id (SpecificChannel.deliver self samples) = SpecificChannel.id self
  ∧ (length (SpecificChannel.last_value self)
     ≤ length (SpecificChannel.last_value (SpecificChannel.deliver self samples))
     ≤ length (SpecificChannel.last_value self) + length samples)%nat.
Proof.
  intros Hinit.
  assert (Hwf : NoDup (PyDict.keys (SpecificChannel.last_value self))).
  { rewrite (init_last_value _ _ _ Hinit). apply PyDictFacts.comprehension_wf. }
  clear Hinit. revert self Hwf.
  induction samples as [|data samples IH]; intros self Hwf.
  - cbn. split_and!; [done|done|lia|lia].
  - rewrite deliver_cons.
    destruct (IH (SpecificChannel.data_callback self data)) as (Hnd & Hid & Hlo & Hhi).
    { by apply PyDictFacts.wf_setitem. }
    split_and!; [done|by rewrite Hid| |].
    + etrans; [|exact Hlo]. cbn [SpecificChannel.data_callback SpecificChannel.last_value].
      rewrite length_setitem. case_decide; lia.
    + etrans; [exact Hhi|]. cbn [SpecificChannel.data_callback SpecificChannel.last_value].
      rewrite length_setitem. cbn [length]. case_decide; lia.
Qed.

Lemma deliver_invariants_witness :
  SpecificChannel.__init__ scenario_dictionary "blockDrv.BD_Cycles" = inr scenario_handler
  ∧ NoDup (PyDict.keys
             (SpecificChannel.last_value
                (SpecificChannel.deliver scenario_handler
                   [scenario_sample_1; scenario_sample_unknown; scenario_sample_2])))
  ∧ SpecificChannel.id
      (SpecificChannel.deliver scenario_handler
         [scenario_sample_1; scenario_sample_unknown; scenario_sample_2])
    = SpecificChannel.id scenario_handler.
Proof.
  split; [reflexivity|].
  pose proof (deliver_invariants scenario_dictionary "blockDrv.BD_Cycles" scenario_handler
                [scenario_sample_1; scenario_sample_unknown; scenario_sample_2] eq_refl)
    as (Hnd & Hid & _).
  split; [exact Hnd | exact Hid].
Defined.

(** X6: two deliveries under different names give the same lookups in
    either order, and the same mapping altogether unless both names are
    new to it. *)
Theorem data_callback_commutes (self : SpecificChannel.t) (s1 s2 : ChData) :
  name s1 ≠ name s2 →
  (∀ k,
     PyDict.get (SpecificChannel.last_value
                   (SpecificChannel.data_callback (SpecificChannel.data_callback self s1) s2)) k
     = PyDict.get (SpecificChannel.last_value
                     (SpecificChannel.data_callback (SpecificChannel.data_callback self s2) s1)) k)
  ∧ (name s1 ∈ PyDict.keys (SpecificChannel.last_value self)
     ∨ name s2 ∈ PyDict.keys (SpecificChannel.last_value self) →
     SpecificChannel.data_callback (SpecificChannel.data_callback self s1) s2
     = SpecificChannel.data_callback (SpecificChannel.data_callback self s2) s1).
Proof.
  intros Hne. split.
  - intros k. rewrite !get_data_callback.
    repeat case_decide; congruence.
  - intros Hin. unfold SpecificChannel.data_callback.
    cbn [SpecificChannel.last_value SpecificChannel.id]. f_equal.
    by apply setitem_comm.
Qed.

Lemma data_callback_commutes_witness :
  name scenario_sample_1 ≠ name scenario_sample_unknown
  ∧ (name scenario_sample_1 ∈ PyDict.keys (SpecificChannel.last_value scenario_handler)
     ∨ name scenario_sample_unknown
       ∈ PyDict.keys (SpecificChannel.last_value scenario_handler))
  ∧ SpecificChannel.data_callback
      (SpecificChannel.data_callback scenario_handler scenario_sample_1)
      scenario_sample_unknown
    = SpecificChannel.data_callback
        (SpecificChannel.data_callback scenario_handler scenario_sample_unknown)
        scenario_sample_1.
Proof.
  assert (Hne : name scenario_sample_1 ≠ name scenario_sample_unknown) by discriminate.
  assert (Hin : name scenario_sample_1 ∈ PyDict.keys (SpecificChannel.last_value scenario_handler)
                ∨ name scenario_sample_unknown
                  ∈ PyDict.keys (SpecificChannel.last_value scenario_handler)).
  { left. cbn. apply list_elem_of_here. }
  split; [exact Hne|]. split; [exact Hin|].
  exact (proj2 (data_callback_commutes scenario_handler scenario_sample_1
                  scenario_sample_unknown Hne) Hin).
Defined.

(** ** Runs of the driver *)

Section MoreDriverFacts.
Implicit Types (w : World) (st : State) (e : exn).

Lemma main_setup_ok w a p h :
  parse_args w = inr a →
  pipeline_factory w a = inr p →
  SpecificChannel.__init__ (dictionaries_channel_name p) (channel_name a) = inr h →
  register_channel_consumer w = inr tt →
  main_setup w initial_state = (setup_state a p h, Ret tt).
Proof.
  intros Hpa Hpf Hinit Hreg.
  unfold main_setup, mbind, M_bind, extern. rewrite Hpa.
  cbn -[SpecificChannel.__init__]. rewrite Hpf.
  cbn -[SpecificChannel.__init__]. rewrite Hinit. cbn.
  unfold call_register, extern. rewrite Hreg. reflexivity.
Qed.

(** With the setup done, the [try] body is one turn of the loop. *)
Lemma main_try_ok w fuel a p h :
  parse_args w = inr a →
  pipeline_factory w a = inr p →
  SpecificChannel.__init__ (dictionaries_channel_name p) (channel_name a) = inr h →
  register_channel_consumer w = inr tt →
  main_try (S fuel) w initial_state
  = (log (EvCall (Sleep 60) (raised (sleep w 0))) (receive w (setup_state a p h)),
     Raise match sleep w 0 with
           | inl e => e
           | inr _ => Exn NameError "name 'chanbel_handler' is not defined"
           end).
Proof.
  intros Hpa Hpf Hinit Hreg. unfold main_try. rewrite bind_eq.
  rewrite (main_setup_ok _ _ _ _ Hpa Hpf Hinit Hreg).
  rewrite main_loop_once. apply main_loop_body_raises.
Qed.

(** The run when the [try] body stopped before the pipeline was bound. *)
Lemma run_unbound_exact w fuel st e :
  main_try fuel w initial_state = (st, Raise e) →
  pipeline (frame st) = None →
  run fuel w
  = if issubclass (exn_cls e) KeyboardInterrupt then (st, Raise unbound_pipeline)
    else if issubclass (exn_cls e) KeyError then (st, Raise unbound_pipeline)
    else if issubclass (exn_cls e) Exception
    then (log (EvPrint Stderr (failure_message w e)) st, Raise unbound_pipeline)
    else (st, Raise e).
Proof.
  intros Htry Hp. rewrite (run_eq _ _ _ _ Htry).
  destruct (issubclass (exn_cls e) KeyboardInterrupt).
  { unfold main_disconnect. rewrite bind_eq. unfold load_fast. by rewrite Hp. }
  destruct (issubclass (exn_cls e) KeyError).
  { rewrite bind_eq. unfold on_KeyError. rewrite bind_eq. unfold load_fast.
    by rewrite Hp. }
  destruct (issubclass (exn_cls e) Exception); [|done].
  rewrite bind_eq. unfold on_Exception, print, main_disconnect. rewrite bind_eq.
  unfold load_fast. cbn [log frame]. by rewrite Hp.
Qed.

(** A call other than [disconnect] that raised is where the [try] body
    stopped. *)
Lemma raised_call_ends_try w fuel (c : call) e :
  c ≠ Disconnect →
  EvCall c (Some e) ∈ events (run fuel w).1 →
  ∃ st,
    main_try fuel w initial_state = (st, Raise e)
    ∧ last (events st) = Some (EvCall c (Some e))
    ∧ written Stderr (events st) = []
    ∧ (Disconnect ∉ calls (events st))
    ∧ pipeline (frame st) = pipeline_constructed w.
Proof.
  intros Hc Hin.
  destruct (main_try_path w fuel) as (st & out & Htry & Hpath).
  destruct (run_tail _ _ _ _ Htry) as (tail & Hev & _ & Hcalls).
  rewrite Hev in Hin. apply elem_of_app in Hin as [Hin|Hin]; cycle 1.
  { assert (Hc' : c ∈ calls tail).
    { unfold calls. apply list_elem_of_omap. by eexists (EvCall _ _). }
    destruct Hcalls as [Hcalls|Hcalls]; rewrite Hcalls in Hc'.
    - by apply elem_of_nil in Hc'.
    - by apply list_elem_of_singleton in Hc'. }
  destruct (try_path_events _ _ _ _ Hpath) as (_ & Herr & _ & Hdisc & Hfr).
  exists st.
  destruct Hpath as [e0 st _ Hevs _|a e0 st _ _ Hevs _|a p e0 st _ _ _ Hevs _
                    |a p h e0 st _ _ _ _ Hevs _|a p h st _ _ _ _ _ Hevs _
                    |a p h e0 st _ _ _ _ _ _ Hevs _|a p h st _ _ _ _ _ _ Hevs _];
    rewrite Hevs in Hin;
    repeat (apply elem_of_cons in Hin as [Hin|Hin]; [try discriminate Hin|]);
    try (by apply elem_of_nil in Hin);
    injection Hin as -> ->; (split_and!; [done|by rewrite Hevs|done..]).
Qed.

(** What the [try] body leaves when the pipeline could not be bound. *)
Lemma construction_failure_try w fuel e :
  construction_failure w = Some e →
  ∃ st,
    main_try fuel w initial_state = (st, Raise e)
    ∧ pipeline (frame st) = None
    ∧ written Stderr (events st) = []
    ∧ (Disconnect ∉ calls (events st)).
Proof.
  unfold construction_failure. intros Hfail.
  destruct (main_try_path w fuel) as (st & out & Htry & Hpath).
  destruct (try_path_events _ _ _ _ Hpath) as (_ & Herr & _ & Hdisc & _).
  exists st.
  destruct Hpath as [e0 st Hpa _ Hfr|a e0 st Hpa Hpf _ Hfr|a p e0 st Hpa Hpf _ _ _
                    |a p h e0 st Hpa Hpf _ _ _ _|a p h st _ Hpa Hpf _ _ _ _
                    |a p h e0 st _ Hpa Hpf _ _ _ _ _|a p h st _ Hpa Hpf _ _ _ _ _];
    rewrite Hpa, ?Hpf in Hfail; try discriminate Hfail;
    injection Hfail as ->; done.
Qed.

(** What comes after the [try] body writes at most one line. *)
Lemma run_tail_stderr w fuel st out :
  main_try fuel w initial_state = (st, out) →
  ∃ tail,
    events (run fuel w).1 = events st ++ tail
    ∧ (length (written Stderr tail) ≤ 1)%nat.
Proof.
  intros Htry. destruct out as [[]|e|].
  - rewrite (run_eq _ _ _ _ Htry).
    destruct (pipeline (frame st)) as [p|] eqn:Hp.
    + rewrite (main_disconnect_bound _ _ p) by done. eexists [_]. split; [done|cbn; lia].
    + destruct (main_disconnect_unbound w st Hp) as (e' & -> & _).
      exists []. rewrite app_nil_r. split; [done|cbn; lia].
  - destruct (pipeline (frame st)) as [p|] eqn:Hp.
    + rewrite (run_bound _ _ _ _ p Htry Hp).
      destruct (issubclass (exn_cls e) KeyboardInterrupt);
        [eexists [_]; split; [done|cbn; lia]|].
      destruct (issubclass (exn_cls e) KeyError).
      { eexists [_; _]. cbn. rewrite <- app_assoc. split; [done|cbn; lia]. }
      destruct (issubclass (exn_cls e) Exception).
      { eexists [_; _]. cbn. rewrite <- app_assoc. split; [done|cbn; lia]. }
      exists []. rewrite app_nil_r. split; [done|cbn; lia].
    + rewrite (run_unbound_exact _ _ _ _ Htry Hp).
      destruct (issubclass (exn_cls e) KeyboardInterrupt);
        [exists []; rewrite app_nil_r; split; [done|cbn; lia]|].
      destruct (issubclass (exn_cls e) KeyError);
        [exists []; rewrite app_nil_r; split; [done|cbn; lia]|].
      destruct (issubclass (exn_cls e) Exception).
      { eexists [_]. cbn. split; [done|cbn; lia]. }
      exists []. rewrite app_nil_r. split; [done|cbn; lia].
  - rewrite (run_eq _ _ _ _ Htry). exists []. rewrite app_nil_r. split; [done|cbn; lia].
Qed.

(** An exception of class [Exception] that is no [KeyError] goes to the
    third clause. *)
Lemma other_exception_clauses e :
  issubclass (exn_cls e) Exception = true →
  exn_cls e ≠ KeyError →
  issubclass (exn_cls e) KeyboardInterrupt = false
  ∧ issubclass (exn_cls e) KeyError = false.
Proof. destruct e as [[] arg]; cbn; intros Hexc Hkey; done. Qed.

End MoreDriverFacts.

(** X7: [main] terminates.  With any fuel but none the run is the run on
    one unit of fuel, and it ends by returning or by an exception, never
    for want of fuel: the loop is left in its first turn, whatever the
    framework answers. *)
Theorem main_terminates (w : World) (fuel : nat) :
  (0 < fuel)%nat →
  run fuel w = run 1 w ∧ (run fuel w).2 ≠ OutOfFuel.
Proof.
  intros Hfuel. split; [|by apply run_terminates].
  destruct fuel as [|fuel]; [lia|]. apply run_fuel.
Qed.

Lemma main_terminates_witness :
  (0 < 7)%nat
  ∧ run 7 (scenario_world "blockDrv.BD_Cycles" (inr tt))
    = run 1 (scenario_world "blockDrv.BD_Cycles" (inr tt))
  ∧ (run 7 (scenario_world "blockDrv.BD_Cycles" (inr tt))).2 ≠ OutOfFuel.
Proof.
  assert (Hfuel : (0 < 7)%nat) by lia.
  split; [exact Hfuel|].
  exact (main_terminates (scenario_world "blockDrv.BD_Cycles" (inr tt)) 7 Hfuel).
Defined.

(** X8: when the setup succeeds and the first [time.sleep(60)] returns,
    the driver does not go on sleeping: reading [chanbel_handler] raises
    [NameError], the [Exception] clause writes the failure line with that
    exception's text to standard error, and [disconnect] is called.  The
    calls of the run are the four of the [try] body and [disconnect]. *)
Theorem first_turn_ends_in_name_error (w : World) (fuel : nat) (a : Namespace)
    (p : Pipeline) :
  (0 < fuel)%nat →
  parse_args w = inr a →
  pipeline_factory w a = inr p →
  channel_name a ∈ PyDict.keys (dictionaries_channel_name p) →
  register_channel_consumer w = inr tt →
  sleep w 0 = inr tt →
  written Stderr (events (run fuel w).1)
  = [ ("[ERROR] Failed to run example code: name 'chanbel_handler' is not defined"
       ++ str1 nl)%string ]
  ∧ calls (events (run fuel w).1) = try_calls ++ [Disconnect]
  ∧ (run fuel w).2 = finished (disconnect w).
Proof.
  intros Hfuel Hpa Hpf Hname Hreg Hsl.
  destruct fuel as [|fuel]; [lia|].
  apply PyDictFacts.get_Some_keys in Hname as [entry Hentry].
  pose proof (init_known _ _ _ Hentry) as Hinit.
  pose proof (main_try_ok w fuel _ _ _ Hpa Hpf Hinit Hreg) as Htry.
  rewrite Hsl in Htry.
  rewrite (run_bound _ _ _ _ p Htry).
  - cbn [exn_cls]. change (issubclass NameError KeyboardInterrupt) with false.
    change (issubclass NameError KeyError) with false.
    change (issubclass NameError Exception) with true.
    cbn [fst snd log events raised]. rewrite (proj1 (receive_rest _ _)). done.
  - cbn [log frame]. by rewrite (proj1 (proj2 (receive_rest _ _))).
Qed.

Lemma first_turn_ends_in_name_error_witness :
  (0 < 1)%nat
  ∧ ("blockDrv.BD_Cycles" ∈ PyDict.keys scenario_dictionary)
  ∧ written Stderr (events (run 1 (scenario_world "blockDrv.BD_Cycles" (inr tt))).1)
    = [ ("[ERROR] Failed to run example code: name 'chanbel_handler' is not defined"
         ++ str1 nl)%string ]
  ∧ calls (events (run 1 (scenario_world "blockDrv.BD_Cycles" (inr tt))).1)
    = try_calls ++ [Disconnect]
  ∧ (run 1 (scenario_world "blockDrv.BD_Cycles" (inr tt))).2 = Ret tt.
Proof.
  assert (Hfuel : (0 < 1)%nat) by lia.
  assert (Hname : "blockDrv.BD_Cycles" ∈ PyDict.keys scenario_dictionary)
    by (cbn; apply list_elem_of_here).
  split; [exact Hfuel|]. split; [exact Hname|].
  exact (first_turn_ends_in_name_error (scenario_world "blockDrv.BD_Cycles" (inr tt)) 1
           {| channel_name := "blockDrv.BD_Cycles"; standard_args := [] |}
           {| dictionaries_channel_name := scenario_dictionary |}
           Hfuel eq_refl eq_refl Hname eq_refl eq_refl).
Defined.

(** X9: an exception that none of the three [except] clauses takes (a
    [SystemExit] of the argument parser, say) leaves [main] as it came:
    when a call other than [disconnect] raised it, the run ends with that
    very exception right after that call, nothing is written to standard
    error and [disconnect] is not called. *)
Theorem uncaught_exception_leaves_main (w : World) (fuel : nat) (c : call) (e : exn) :
  c ≠ Disconnect →
  EvCall c (Some e) ∈ events (run fuel w).1 →
  caught e = false →
  (run fuel w).2 = Raise e
  ∧ last (events (run fuel w).1) = Some (EvCall c (Some e))
  ∧ written Stderr (events (run fuel w).1) = []
  ∧ (Disconnect ∉ calls (events (run fuel w).1)).
Proof.
  intros Hc Hin Hcaught.
  destruct (raised_call_ends_try _ _ _ _ Hc Hin) as (st & Htry & Hlast & Herr & Hdisc & _).
  rewrite (run_eq _ _ _ _ Htry).
  unfold caught in Hcaught. cbn [existsb] in Hcaught.
  destruct (issubclass (exn_cls e) KeyboardInterrupt); [discriminate Hcaught|].
  destruct (issubclass (exn_cls e) KeyError); [discriminate Hcaught|].
  destruct (issubclass (exn_cls e) Exception); [discriminate Hcaught|].
  done.
Qed.

Lemma uncaught_exception_leaves_main_witness :
  ParseArgs ≠ Disconnect
  ∧ EvCall ParseArgs (Some (Exn SystemExit "2"))
      ∈ events (run 1 (scenario_world_parse_args_raises (Exn SystemExit "2"))).1
  ∧ caught (Exn SystemExit "2") = false
  ∧ (run 1 (scenario_world_parse_args_raises (Exn SystemExit "2"))).2
    = Raise (Exn SystemExit "2")
  ∧ written Stderr (events (run 1 (scenario_world_parse_args_raises (Exn SystemExit "2"))).1)
    = [].
Proof.
  assert (Hc : ParseArgs ≠ Disconnect) by discriminate.
  assert (Hin : EvCall ParseArgs (Some (Exn SystemExit "2"))
                  ∈ events (run 1 (scenario_world_parse_args_raises (Exn SystemExit "2"))).1).
  { vm_compute. apply list_elem_of_here. }
  split; [exact Hc|]. split; [exact Hin|]. split; [reflexivity|].
  pose proof (uncaught_exception_leaves_main
                (scenario_world_parse_args_raises (Exn SystemExit "2")) 1 ParseArgs
                (Exn SystemExit "2") Hc Hin eq_refl) as (Hout & _ & Herr & _).
  split; [exact Hout | exact Herr].
Defined.



(** X11: when parsing the arguments or building the pipeline is ended by
    a [KeyboardInterrupt] or by a [KeyError], nothing at all is written to
    standard error: the clause that takes the exception is left without a
    line (the [KeyError] clause fails reading [pipeline]), and [main] ends
    by the [UnboundLocalError] of the unbound [pipeline], not by the
    exception that was raised.  [disconnect] is not called. *)
Theorem early_interrupt_or_key_error_is_lost (w : World) (fuel : nat) (e : exn) :
  construction_failure w = Some e →
  exn_cls e = KeyboardInterrupt ∨ exn_cls e = KeyError →
  (run fuel w).2 = Raise unbound_pipeline
  ∧ written Stderr (events (run fuel w).1) = []
  ∧ (Disconnect ∉ calls (events (run fuel w).1)).
Proof.
  intros Hfail Hcls.
  destruct (construction_failure_try _ fuel _ Hfail) as (st & Htry & Hfr & Herr & Hdisc).
  rewrite (run_unbound_exact _ _ _ _ Htry Hfr).
  destruct Hcls as [-> | ->].
  - by change (issubclass KeyboardInterrupt KeyboardInterrupt) with true.
  - change (issubclass KeyError KeyboardInterrupt) with false.
    by change (issubclass KeyError KeyError) with true.
Qed.

Lemma early_interrupt_or_key_error_is_lost_witness :
  construction_failure (scenario_world_parse_args_raises (Exn KeyError "dictionary"))
  = Some (Exn KeyError "dictionary")
  ∧ (exn_cls (Exn KeyError "dictionary") = KeyboardInterrupt
     ∨ exn_cls (Exn KeyError "dictionary") = KeyError)
  ∧ (run 1 (scenario_world_parse_args_raises (Exn KeyError "dictionary"))).2
    = Raise unbound_pipeline
  ∧ written Stderr
      (events (run 1 (scenario_world_parse_args_raises (Exn KeyError "dictionary"))).1)
    = [].
Proof.
  assert (Hcls : exn_cls (Exn KeyError "dictionary") = KeyboardInterrupt
                 ∨ exn_cls (Exn KeyError "dictionary") = KeyError) by (right; reflexivity).
  split; [reflexivity|]. split; [exact Hcls|].
  pose proof (early_interrupt_or_key_error_is_lost
                (scenario_world_parse_args_raises (Exn KeyError "dictionary")) 1
                (Exn KeyError "dictionary") eq_refl Hcls) as (Hout & Herr & _).
  split; [exact Hout | exact Herr].
Defined.

(** X12: when parsing the arguments or building the pipeline raises
    another [Exception], the failure line with the exception's text is
    written to standard error, and then [main] itself ends by the
    [UnboundLocalError] of the unbound [pipeline]; [disconnect] is not
    called. *)
Theorem early_failure_is_reported_then_main_raises (w : World) (fuel : nat) (e : exn) :
  construction_failure w = Some e →
  issubclass (exn_cls e) Exception = true →
  exn_cls e ≠ KeyError →
  written Stderr (events (run fuel w).1)
  = [ ("[ERROR] Failed to run example code: " ++ exn_str e ++ str1 nl)%string ]
  ∧ (run fuel w).2 = Raise unbound_pipeline
  ∧ (Disconnect ∉ calls (events (run fuel w).1)).
Proof.
  intros Hfail Hexc Hkey.
  destruct (construction_failure_try _ fuel _ Hfail) as (st & Htry & Hfr & Herr & Hdisc).
  destruct (other_exception_clauses e Hexc Hkey) as [Hki Hke].
  destruct (exn_text_other w e Hke) as [Htext Hstr].
  rewrite (run_unbound_exact _ _ _ _ Htry Hfr), Hki, Hke, Hexc.
  cbn [fst snd log events]. unfold written, calls in *.
  rewrite !omap_app, Herr. cbn [omap app]. rewrite app_nil_r.
  unfold failure_message. rewrite Htext, Hstr.
  split_and!; [reflexivity|done|done].
Qed.

Lemma early_failure_is_reported_then_main_raises_witness :
  construction_failure scenario_world_no_pipeline = Some (Exn OtherError "connection refused")
  ∧ issubclass (exn_cls (Exn OtherError "connection refused")) Exception = true
  ∧ exn_cls (Exn OtherError "connection refused") ≠ KeyError
  ∧ written Stderr (events (run 1 scenario_world_no_pipeline).1)
    = [ ("[ERROR] Failed to run example code: "
         ++ exn_str (Exn OtherError "connection refused") ++ str1 nl)%string ]
  ∧ (run 1 scenario_world_no_pipeline).2 = Raise unbound_pipeline.
Proof.
  assert (Hkey : exn_cls (Exn OtherError "connection refused") ≠ KeyError) by discriminate.
  split; [reflexivity|]. split; [reflexivity|]. split; [exact Hkey|].
  pose proof (early_failure_is_reported_then_main_raises scenario_world_no_pipeline 1
                (Exn OtherError "connection refused") eq_refl eq_refl Hkey)
    as (Herr & Hout & _).
  split; [exact Herr | exact Hout].
Defined.

(** X13: when registering the consumer or sleeping raises an [Exception]
    that is no [KeyError] (the pipeline is then bound), the one line on
    standard error is the failure line with the exception's text, and
    [disconnect] is called: [main] ends as that call ends. *)
Theorem framework_exception_is_reported
    (w : World) (fuel : nat) (c : call) (e : exn) (p : Pipeline) :
  c ≠ Disconnect →
  EvCall c (Some e) ∈ events (run fuel w).1 →
  issubclass (exn_cls e) Exception = true →
  exn_cls e ≠ KeyError →
  pipeline_constructed w = Some p →
  written Stderr (events (run fuel w).1)
  = [ ("[ERROR] Failed to run example code: " ++ exn_str e ++ str1 nl)%string ]
  ∧ last (events (run fuel w).1) = Some (EvCall Disconnect (raised (disconnect w)))
  ∧ (run fuel w).2 = finished (disconnect w).
Proof.
  intros Hc Hin Hexc Hkey Hbuilt.
  destruct (raised_call_ends_try _ _ _ _ Hc Hin) as (st & Htry & _ & Herr & _ & Hfr).
  rewrite Hbuilt in Hfr.
  destruct (other_exception_clauses e Hexc Hkey) as [Hki Hke].
  destruct (exn_text_other w e Hke) as [Htext Hstr].
  rewrite (run_bound _ _ _ _ p Htry Hfr), Hki, Hke, Hexc.
  cbn [fst snd log events]. rewrite last_snoc.
  unfold written in *. rewrite !omap_app, Herr.
  unfold failure_message. rewrite Htext, Hstr.
  split_and!; [reflexivity|done|done].
Qed.

Lemma framework_exception_is_reported_witness :
  Sleep 60 ≠ Disconnect
  ∧ EvCall (Sleep 60) (Some (Exn OtherError "socket closed"))
      ∈ events (run 1 (scenario_world "blockDrv.BD_Cycles"
                         (inl (Exn OtherError "socket closed")))).1
  ∧ exn_cls (Exn OtherError "socket closed") ≠ KeyError
  ∧ written Stderr
      (events (run 1 (scenario_world "blockDrv.BD_Cycles"
                        (inl (Exn OtherError "socket closed")))).1)
    = [ ("[ERROR] Failed to run example code: "
         ++ exn_str (Exn OtherError "socket closed") ++ str1 nl)%string ].
Proof.
  assert (Hc : Sleep 60 ≠ Disconnect) by discriminate.
  assert (Hkey : exn_cls (Exn OtherError "socket closed") ≠ KeyError) by discriminate.
  assert (Hin : EvCall (Sleep 60) (Some (Exn OtherError "socket closed"))
                  ∈ events (run 1 (scenario_world "blockDrv.BD_Cycles"
                                     (inl (Exn OtherError "socket closed")))).1).
  { vm_compute. do 3 apply list_elem_of_further. apply list_elem_of_here. }
  split; [exact Hc|]. split; [exact Hin|]. split; [exact Hkey|].
  exact (proj1 (framework_exception_is_reported
                  (scenario_world "blockDrv.BD_Cycles" (inl (Exn OtherError "socket closed")))
                  1 (Sleep 60) (Exn OtherError "socket closed")
                  {| dictionaries_channel_name := scenario_dictionary |}
                  Hc Hin eq_refl Hkey eq_refl)).
Defined.

(** X14: a handler is registered only for a known channel name.  If a
    run contains the call that registers a consumer, then the arguments
    were parsed, the pipeline was built, the requested name is a key of
    its channel dictionary, and the consumer is the one handler of the
    run. *)
Theorem registration_needs_known_name
    (w : World) (fuel : nat) (r : ref) (o : option exn) :
  EvCall (RegisterChannelConsumer r) o ∈ events (run fuel w).1 →
  r = 0
  ∧ ∃ a p,
      parse_args w = inr a
      ∧ pipeline_factory w a = inr p
      ∧ channel_name a ∈ PyDict.keys (dictionaries_channel_name p).
Proof.
  intros Hin.
  assert (Hknown : ∀ (d : PyDict.t ChTemplate) n h,
             SpecificChannel.__init__ d n = inr h → n ∈ PyDict.keys d).
  { intros d n h Hinit. destruct (decide (n ∈ PyDict.keys d)) as [|Hnin]; [done|].
    rewrite (init_unknown _ _ Hnin) in Hinit. discriminate Hinit. }
  destruct (main_try_path w fuel) as (st & out & Htry & Hpath).
  destruct (run_tail _ _ _ _ Htry) as (tail & Hev & _ & Hcalls).
  rewrite Hev in Hin. apply elem_of_app in Hin as [Hin|Hin]; cycle 1.
  { assert (Hc : RegisterChannelConsumer r ∈ calls tail).
    { unfold calls. apply list_elem_of_omap. by eexists (EvCall _ _). }
    destruct Hcalls as [Hcalls|Hcalls]; rewrite Hcalls in Hc.
    - by apply elem_of_nil in Hc.
    - apply list_elem_of_singleton in Hc. discriminate Hc. }
  destruct Hpath as [e0 st _ Hevs _|a e0 st _ _ Hevs _|a p e0 st _ _ _ Hevs _
                    |a p h e0 st Hpa Hpf Hinit _ Hevs _|a p h st _ Hpa Hpf Hinit _ Hevs _
                    |a p h e0 st _ Hpa Hpf Hinit _ _ Hevs _
                    |a p h st _ Hpa Hpf Hinit _ _ Hevs _];
    rewrite Hevs in Hin;
    repeat (apply elem_of_cons in Hin as [Hin|Hin]; [try discriminate Hin|]);
    try (by apply elem_of_nil in Hin);
    injection Hin as -> _; (split; [done|]); exists a, p; eauto.
Qed.

Lemma registration_needs_known_name_witness :
  EvCall (RegisterChannelConsumer 0) None
    ∈ events (run 1 (scenario_world "blockDrv.BD_Cycles" (inr tt))).1
  ∧ ∃ a p,
      parse_args (scenario_world "blockDrv.BD_Cycles" (inr tt)) = inr a
      ∧ pipeline_factory (scenario_world "blockDrv.BD_Cycles" (inr tt)) a = inr p
      ∧ channel_name a ∈ PyDict.keys (dictionaries_channel_name p).
Proof.
  assert (Hin : EvCall (RegisterChannelConsumer 0) None
                  ∈ events (run 1 (scenario_world "blockDrv.BD_Cycles" (inr tt))).1).
  { vm_compute. do 2 apply list_elem_of_further. apply list_elem_of_here. }
  split; [exact Hin|].
  exact (proj2 (registration_needs_known_name
                  (scenario_world "blockDrv.BD_Cycles" (inr tt)) 1 0 None Hin)).
Defined.

(** X15: the calls of every run follow one script.  They are a beginning
    of [ParseArgs], [PipelineFactory], [RegisterChannelConsumer 0],
    [Sleep 60], at least the first of them, followed or not by
    [Disconnect]; and [Disconnect] comes only after [PipelineFactory].
    So each call is made at most once, and every sleep is of 60. *)
Theorem calls_follow_script (w : World) (fuel : nat) :
  ∃ n,
    (1 ≤ n ≤ 4)%nat
    ∧ (calls (events (run fuel w).1) = take n try_calls
       ∨ (2 ≤ n)%nat ∧ calls (events (run fuel w).1) = take n try_calls ++ [Disconnect]).
Proof.
  destruct (main_try_path w fuel) as (st & out & Htry & Hpath).
  assert (Hbound : ∀ n, (2 ≤ n ≤ 4)%nat → calls (events st) = take n try_calls →
            ∃ n, (1 ≤ n ≤ 4)%nat
                 ∧ (calls (events (run fuel w).1) = take n try_calls
                    ∨ (2 ≤ n)%nat
                      ∧ calls (events (run fuel w).1) = take n try_calls ++ [Disconnect])).
  { intros n Hn Hst. destruct (run_tail _ _ _ _ Htry) as (tail & -> & _ & Hc).
    exists n. split; [lia|]. unfold calls in *. rewrite omap_app, Hst.
    destruct Hc as [-> | ->]; [left; by rewrite app_nil_r | right; split; [lia|done]]. }
  assert (Hunbound : ∀ n e, (1 ≤ n ≤ 4)%nat → out = Raise e → pipeline (frame st) = None →
            calls (events st) = take n try_calls →
            ∃ n, (1 ≤ n ≤ 4)%nat
                 ∧ (calls (events (run fuel w).1) = take n try_calls
                    ∨ (2 ≤ n)%nat
                      ∧ calls (events (run fuel w).1) = take n try_calls ++ [Disconnect])).
  { intros n e Hn -> Hfr Hst.
    destruct (run_unbound _ _ _ _ Htry Hfr) as (tail & e' & -> & Hc & _ & _).
    exists n. split; [lia|]. left. unfold calls in *.
    by rewrite omap_app, Hst, Hc, app_nil_r. }
  destruct Hpath as [e0 st _ Hevs Hfr|a e0 st _ _ Hevs Hfr|a p e0 st _ _ _ Hevs _
                    |a p h e0 st _ _ _ _ Hevs _|a p h st _ _ _ _ _ Hevs _
                    |a p h e0 st _ _ _ _ _ _ Hevs _|a p h st _ _ _ _ _ _ Hevs _].
  - apply (Hunbound 1 e0); [lia|done|done|by rewrite Hevs].
  - apply (Hunbound 2 e0); [lia|done|done|by rewrite Hevs].
  - apply (Hbound 2); [lia|by rewrite Hevs].
  - apply (Hbound 3); [lia|by rewrite Hevs].
  - apply (Hbound 3); [lia|by rewrite Hevs].
  - apply (Hbound 4); [lia|by rewrite Hevs].
  - apply (Hbound 4); [lia|by rewrite Hevs].
Qed.

(** X16: no run prints to standard error more than once.  At most one
    message is written there in a run; one message can hold several lines,
    as the unknown-channel message does with its line for each name. *)
Theorem at_most_one_error_message (w : World) (fuel : nat) :
  (length (written Stderr (events (run fuel w).1)) ≤ 1)%nat.
Proof.
  destruct (main_try_path w fuel) as (st & out & Htry & Hpath).
  destruct (try_path_events _ _ _ _ Hpath) as (_ & Herr & _).
  destruct (run_tail_stderr _ _ _ _ Htry) as (tail & -> & Htail).
  unfold written in *. by rewrite omap_app, Herr.
Qed.


